(** * PostgresToOceanBase: type conversion, DDL generation and the chunked
    data pipeline.

    A shallow embedding of [src/migration/converter.py],
    [src/migration/schema.py] and [src/migration/data.py], followed by the
    properties established about them. *)

From Stdlib Require Import ZArith Ascii String Lia.
From stdpp Require Import base option list gmap strings pretty.

Local Open Scope Z_scope.

(** ** Python string primitives

    Strings are byte strings; the texts handled here (catalogue type names,
    default expressions, identifiers) are ASCII.  Case mapping acts on the
    ASCII letters and leaves every other character alone. *)
Module PyStr.

Definition is_upper (c : ascii) : bool :=
  (65 <=? nat_of_ascii c)%nat && (nat_of_ascii c <=? 90)%nat.

Definition is_lower (c : ascii) : bool :=
  (97 <=? nat_of_ascii c)%nat && (nat_of_ascii c <=? 122)%nat.

Definition is_digit (c : ascii) : bool :=
  (48 <=? nat_of_ascii c)%nat && (nat_of_ascii c <=? 57)%nat.

Definition lower_char (c : ascii) : ascii :=
  if is_upper c then ascii_of_nat (nat_of_ascii c + 32) else c.

Definition upper_char (c : ascii) : ascii :=
  if is_lower c then ascii_of_nat (nat_of_ascii c - 32) else c.

Fixpoint map_chars (f : ascii -> ascii) (s : string) : string :=
  match s with
  | EmptyString => EmptyString
  | String c s' => String (f c) (map_chars f s')
  end.

(** [s.lower()] and [s.upper()]. *)
Definition lower : string -> string := map_chars lower_char.
Definition upper : string -> string := map_chars upper_char.

(** [s.startswith(p)]. *)
Fixpoint startswith (s p : string) : bool :=
  match p, s with
  | EmptyString, _ => true
  | String _ _, EmptyString => false
  | String a p', String b s' => if decide (a = b) then startswith s' p' else false
  end.

(** [needle in hay], the substring test. *)
Fixpoint contains (needle hay : string) : bool :=
  startswith hay needle ||
  match hay with
  | EmptyString => false
  | String _ hay' => contains needle hay'
  end.

(** [str.isspace] on one ASCII character: TAB, LF, VT, FF, CR, the four
    separators 0x1c-0x1f, and the blank. *)
Definition is_space (c : ascii) : bool :=
  let n := nat_of_ascii c in
  ((9 <=? n)%nat && (n <=? 13)%nat) || ((28 <=? n)%nat && (n <=? 32)%nat).

Fixpoint lstrip (s : string) : string :=
  match s with
  | EmptyString => EmptyString
  | String c s' => if is_space c then lstrip s' else s
  end.

Definition is_empty (s : string) : bool :=
  match s with EmptyString => true | String _ _ => false end.

Fixpoint rstrip (s : string) : string :=
  match s with
  | EmptyString => EmptyString
  | String c s' =>
      let r := rstrip s' in
      if is_space c && is_empty r then EmptyString else String c r
  end.

(** [s.strip()]. *)
Definition strip (s : string) : string := rstrip (lstrip s).

Fixpoint last_char (s : string) : option ascii :=
  match s with
  | EmptyString => None
  | String c EmptyString => Some c
  | String _ s' => last_char s'
  end.

(** [s.endswith(c)] for a one-character suffix. *)
Definition endswith_char (s : string) (c : ascii) : bool :=
  match last_char s with
  | Some d => if decide (c = d) then true else false
  | None => false
  end.

Fixpoint drop_last (s : string) : string :=
  match s with
  | EmptyString => EmptyString
  | String _ EmptyString => EmptyString
  | String c s' => String c (drop_last s')
  end.

(** The slice [s[1:-1]]. *)
Definition slice_1_m1 (s : string) : string :=
  match s with
  | EmptyString => EmptyString
  | String _ s' => drop_last s'
  end.

(** [s.replace(c, r)] for a one-character pattern [c]. *)
Fixpoint replace_char (c : ascii) (r : string) (s : string) : string :=
  match s with
  | EmptyString => EmptyString
  | String d s' =>
      if decide (c = d) then r +:+ replace_char c r s'
      else String d (replace_char c r s')
  end.

(** [sep.join(parts)]. *)
Fixpoint join (sep : string) (parts : list string) : string :=
  match parts with
  | [] => ""
  | [p] => p
  | p :: rest => p +:+ sep +:+ join sep rest
  end.

(** Number of occurrences of a character. *)
Fixpoint count_char (c : ascii) (s : string) : nat :=
  match s with
  | EmptyString => O
  | String d s' => ((if decide (c = d) then 1 else 0) + count_char c s')%nat
  end.

End PyStr.

(** ** Python values that travel through the pipeline *)

(** A cell of a source row.  [VObj] stands for any other object the driver
    hands over (a datetime, a UUID, a Decimal, ...): the code only ever asks
    such a value for its truth value and for [str(value)], so these two
    answers are what the model keeps. *)
Inductive value : Type :=
  | VNone
  | VBool (b : bool)
  | VInt (z : Z)
  | VStr (s : string)
  | VObj (repr : string) (truth : bool).

Global Instance value_eq_dec : EqDecision value.
Proof. solve_decision. Defined.

(** Python truthiness, as used by [if value]. *)
Definition truthy (v : value) : bool :=
  match v with
  | VNone => false
  | VBool b => b
  | VInt z => negb (z =? 0)
  | VStr s => negb (PyStr.is_empty s)
  | VObj _ t => t
  end.

(** [str(value)]. *)
Definition py_str (v : value) : string :=
  match v with
  | VNone => "None"
  | VBool true => "True"
  | VBool false => "False"
  | VInt z => pretty z
  | VStr s => s
  | VObj r _ => r
  end.

(** ** Column descriptors

    A column descriptor is the dictionary built from one row of
    [information_schema.columns].  A field is [None] when the key is absent
    or holds SQL NULL; the code reads the nullable keys through [dict.get]
    and treats the two cases alike. *)
Record column_info : Type := {
  column_name : option string;
  data_type : option string;
  udt_name : option string;
  character_maximum_length : option Z;
  numeric_precision : option Z;
  numeric_scale : option Z;
  is_nullable : option string;
  column_default : option string
}.

(** ** [TypeConverter] *)
Module TypeConverter.

(** [should_ignore_column]: the body of the [for] loop is one step of
    [ignore_loop]; falling out of the loop returns [False]. *)
Fixpoint ignore_loop (data_type udt_name : string) (ignore_types : list string)
  : bool :=
  match ignore_types with
  | [] => false
  | ignore_type :: rest =>
      if PyStr.contains ignore_type data_type then true
      else if PyStr.contains ignore_type udt_name then true
      else if PyStr.startswith udt_name "_" then true
      else ignore_loop data_type udt_name rest
  end.

Definition should_ignore_column (column : column_info)
    (ignore_types : list string) : bool :=
  let data_type := PyStr.lower (default "" (data_type column)) in
  let udt_name := PyStr.lower (default "" (udt_name column)) in
  ignore_loop data_type udt_name ignore_types.

(** [convert_value]. *)
Definition convert_value (v : value) (postgres_type : string) : value :=
  match v with
  | VNone => VNone
  | _ =>
      let base_type := PyStr.lower postgres_type in
      if decide (base_type = "boolean") then
        if truthy v then VInt 1 else VInt 0
      else if decide (base_type = "uuid") then VStr (py_str v)
      else if decide (base_type = "timestamp") then v
      else if decide (base_type = "timestamptz") then v
      else v
  end.

End TypeConverter.

(** ** Exceptions

    A call either returns or raises.  [DatabaseError] stands for whatever a
    client raises; [Unsupported] marks the one place where the model stops
    short of Python (see [py_format]). *)
Inductive exn : Type :=
  | KeyError (key : string)
  | IndexError
  | ValueError
  | DatabaseError
  | Unsupported.

Inductive outcome (A : Type) : Type :=
  | Returned (a : A)
  | Raised (e : exn).
Arguments Returned {A} a.
Arguments Raised {A} e.

Definition obind {A B : Type} (m : outcome A) (k : A -> outcome B) : outcome B :=
  match m with
  | Returned a => k a
  | Raised e => Raised e
  end.

Notation "x <-! m ; k" := (obind m (fun x => k))
  (at level 100, m at next level, right associativity).

(** [d[key]] on a descriptor field: [KeyError] when the key is missing. *)
Definition getitem {A : Type} (key : string) (field : option A) : outcome A :=
  match field with
  | Some a => Returned a
  | None => Raised (KeyError key)
  end.

Fixpoint mapM {A B : Type} (f : A -> outcome B) (l : list A) : outcome (list B) :=
  match l with
  | [] => Returned []
  | a :: l' => b <-! f a; bs <-! mapM f l'; Returned (b :: bs)
  end.

(** ** [str.format] with keyword arguments

    The templates of the mapping table use literal text, the escapes [{{]
    and [}}], and replacement fields that are a bare keyword name
    ([{length}], [{precision}], [{scale}]).  That fragment is modelled with
    Python's errors; a field carrying a conversion, a format spec, an
    attribute or an index is reported as [Unsupported]. *)
Definition field_special (c : ascii) : bool :=
  bool_decide (c = "!"%char) || bool_decide (c = ":"%char) ||
  bool_decide (c = "."%char) || bool_decide (c = "["%char).

Fixpoint all_digits (s : string) : bool :=
  match s with
  | EmptyString => true
  | String c s' => PyStr.is_digit c && all_digits s'
  end.

Fixpoint kw_lookup (name : string) (kwargs : list (string * string)) : option string :=
  match kwargs with
  | [] => None
  | (k, v) :: rest => if decide (k = name) then Some v else kw_lookup name rest
  end.

Fixpoint format_go (kwargs : list (string * string)) (field : option string)
    (s : string) : outcome string :=
  match s with
  | EmptyString =>
      match field with
      | None => Returned ""
      | Some _ => Raised ValueError
      end
  | String c s' =>
      match field with
      | Some name =>
          if decide (c = "}"%char) then
            if all_digits name then Raised IndexError
            else match kw_lookup name kwargs with
                 | Some v => rest <-! format_go kwargs None s'; Returned (v +:+ rest)
                 | None => Raised (KeyError name)
                 end
          else if decide (c = "{"%char) then Raised ValueError
          else if field_special c then Raised Unsupported
          else format_go kwargs (Some (name +:+ String c "")) s'
      | None =>
          if decide (c = "{"%char) then
            match s' with
            | String d s'' =>
                if decide (d = "{"%char)
                then rest <-! format_go kwargs None s''; Returned (String "{"%char rest)
                else format_go kwargs (Some "") s'
            | EmptyString => Raised ValueError
            end
          else if decide (c = "}"%char) then
            match s' with
            | String d s'' =>
                if decide (d = "}"%char)
                then rest <-! format_go kwargs None s''; Returned (String "}"%char rest)
                else Raised ValueError
            | EmptyString => Raised ValueError
            end
          else rest <-! format_go kwargs None s'; Returned (String c rest)
      end
  end.

Definition py_format (template : string) (kwargs : list (string * string))
  : outcome string :=
  format_go kwargs None template.

(** [x or d] for an optional integer: [None] and [0] are both falsy. *)
Definition int_or (x : option Z) (d : Z) : Z :=
  match x with
  | Some z => if z =? 0 then d else z
  | None => d
  end.

Module TypeMapping.

Definition type_aliases : gmap string string :=
  {[ "character varying" := "varchar";
     "character" := "char";
     "timestamp with time zone" := "timestamptz";
     "timestamp without time zone" := "timestamp" ]}.

(** [convert_column_type]; [type_mapping] is the [postgres_to_mysql] table
    of the mapping file. *)
Definition convert_column_type (type_mapping : gmap string string)
    (postgres_type : string) (column : column_info) : outcome string :=
  let base_type := PyStr.lower postgres_type in
  let base_type := default base_type (type_aliases !! base_type) in
  if bool_decide (base_type = "decimal") || bool_decide (base_type = "numeric") then
    let precision := numeric_precision column in
    let scale := numeric_scale column in
    let target_type :=
      default "DECIMAL({precision},{scale})" (type_mapping !! "decimal") in
    py_format target_type
      [("precision", pretty (int_or precision 10));
       ("scale", pretty (int_or scale 0))]
  else if bool_decide (base_type = "char") || bool_decide (base_type = "varchar") then
    let length := character_maximum_length column in
    if bool_decide (base_type = "varchar") && bool_decide (length = None) then
      Returned (default "TEXT" (type_mapping !! "text"))
    else
      let length :=
        if bool_decide (base_type = "char") && bool_decide (length = None)
        then Some 1 else length in
      let target_type :=
        default (PyStr.upper base_type) (type_mapping !! base_type) in
      py_format target_type [("length", pretty (int_or length 255))]
  else
    Returned (default (PyStr.upper postgres_type) (type_mapping !! base_type)).

End TypeMapping.

(** ** [SchemaMigrator] *)

Record table_schema : Type := {
  table_name : string;
  columns : list column_info;
  primary_keys : list string
}.

Module SchemaMigrator.

(** [_quote_identifier]. *)
Definition _quote_identifier (name : string) : string :=
  let escaped := PyStr.replace_char "`"%char "``" name in
  "`" +:+ escaped +:+ "`".

(** The line feed of the Python literals. *)
Definition nl : string := String "010"%char "".

(** Membership in the character class [[A-Za-z0-9_ ]]. *)
Definition cast_char (c : ascii) : bool :=
  PyStr.is_upper c || PyStr.is_lower c || PyStr.is_digit c ||
  bool_decide (c = "_"%char) || bool_decide (c = " "%char).

Fixpoint all_cast_chars (s : string) : bool :=
  match s with
  | EmptyString => true
  | String c s' => cast_char c && all_cast_chars s'
  end.

(** [re.sub(r"::[A-Za-z0-9_ ]+$", "", s)]: the pattern is anchored at the
    end, so the leftmost position where it matches is the only match; the
    text from there on is removed.  (The argument never ends in a newline:
    it has just been stripped.) *)
Fixpoint strip_cast (s : string) : string :=
  match s with
  | EmptyString => EmptyString
  | String c s' =>
      match s with
      | String ":" (String ":" (String d t)) =>
          if all_cast_chars (String d t) then EmptyString
          else String c (strip_cast s')
      | _ => String c (strip_cast s')
      end
  end.

(** The value of [expr] in [_normalize_default] once the blanks, an
    enclosing pair of parentheses and a trailing cast are gone. *)
Definition default_expr (column_default : string) : string :=
  let expr := PyStr.strip column_default in
  let expr :=
    if PyStr.startswith expr "(" && PyStr.endswith_char expr ")"%char
    then PyStr.strip (PyStr.slice_1_m1 expr) else expr in
  PyStr.strip (strip_cast expr).

(** [_normalize_default]. *)
Definition _normalize_default (base_type : string) (column_default : string)
  : string :=
  if PyStr.is_empty column_default then ""
  else
    let expr := default_expr column_default in
    let normalized := PyStr.lower expr in
    if bool_decide (base_type = "boolean") &&
       (bool_decide (normalized = "true") || bool_decide (normalized = "t") ||
        bool_decide (normalized = "1")) then "1"
    else if bool_decide (base_type = "boolean") &&
       (bool_decide (normalized = "false") || bool_decide (normalized = "f") ||
        bool_decide (normalized = "0")) then "0"
    else if bool_decide (normalized = "now()") then "CURRENT_TIMESTAMP"
    else expr.

(** First loop of [generate_create_table_sql]: split the columns into the
    kept descriptors and the names of the ignored ones.  The log line of an
    ignored column reads its name and its type. *)
Fixpoint filter_columns (ignore_types : list string) (cols : list column_info)
  : outcome (list column_info * list string) :=
  match cols with
  | [] => Returned ([], [])
  | col :: rest =>
      if TypeConverter.should_ignore_column col ignore_types then
        name <-! getitem "column_name" (column_name col);
        _ <-! getitem "data_type" (data_type col);
        r <-! filter_columns ignore_types rest;
        Returned (r.1, name :: r.2)
      else
        r <-! filter_columns ignore_types rest;
        Returned (col :: r.1, r.2)
  end.

(** [is_serial] of the second loop. *)
Definition is_serial (base_type column_default : string) : bool :=
  let has_sequence_default :=
    PyStr.contains "nextval(" (PyStr.lower column_default) in
  bool_decide (base_type = "serial") || bool_decide (base_type = "bigserial") ||
  has_sequence_default.

(** Body of the second loop: the definition of one kept column. *)
Definition column_def (type_mapping : gmap string string)
    (primary_keys : list string) (col : column_info) : outcome string :=
  col_name <-! getitem "column_name" (column_name col);
  let quoted_col_name := _quote_identifier col_name in
  postgres_type <-! getitem "data_type" (data_type col);
  let base_type := PyStr.lower postgres_type in
  nullability <-! getitem "is_nullable" (is_nullable col);
  let nullable := if bool_decide (nullability = "NO") then "NOT NULL" else "" in
  target_type <-! TypeMapping.convert_column_type type_mapping postgres_type col;
  let is_primary := bool_decide (col_name ∈ primary_keys) in
  let column_default := default "" (column_default col) in
  let serial := is_serial base_type column_default in
  let default_clause :=
    if serial then ""
    else
      let normalized_default := _normalize_default base_type column_default in
      if PyStr.is_empty normalized_default then ""
      else "DEFAULT " +:+ normalized_default in
  let target_type :=
    if is_primary && serial then target_type +:+ " AUTO_INCREMENT"
    else target_type in
  Returned (PyStr.strip
    ("    " +:+ quoted_col_name +:+ " " +:+ target_type +:+ " " +:+
     nullable +:+ " " +:+ default_clause)).

Definition valid_primary_keys (primary_keys ignored_columns : list string)
  : list string :=
  filter (fun pk => pk ∉ ignored_columns) primary_keys.

Definition primary_key_def (valid : list string) : string :=
  match valid with
  | [] => ""
  | _ =>
      let pk_columns := PyStr.join ", " (_quote_identifier <$> valid) in
      "," +:+ nl +:+ "    PRIMARY KEY (" +:+ pk_columns +:+ ")"
  end.

(** [generate_create_table_sql]. *)
Definition generate_create_table_sql (type_mapping : gmap string string)
    (schema : table_schema) (ignore_types : list string)
  : outcome (string * list string) :=
  parts <-! filter_columns ignore_types (columns schema);
  let filtered_columns := parts.1 in
  let ignored_columns := parts.2 in
  column_defs <-! mapM (column_def type_mapping (primary_keys schema))
                       filtered_columns;
  let valid := valid_primary_keys (primary_keys schema) ignored_columns in
  let sql :=
    "CREATE TABLE IF NOT EXISTS " +:+ _quote_identifier (table_name schema) +:+
    " (" +:+ nl +:+ PyStr.join ("," +:+ nl) column_defs +:+
    primary_key_def valid +:+ nl +:+
    ") ENGINE=InnoDB DEFAULT CHARSET=utf8mb4;" in
  Returned (sql, ignored_columns).

(** [_generate_create_index_sql]. *)
Definition _generate_create_index_sql (table_name index_name : string)
    (columns : list string) (is_unique : bool) : string :=
  let quoted_table := _quote_identifier table_name in
  let quoted_index := _quote_identifier index_name in
  let columns_str := PyStr.join ", " (_quote_identifier <$> columns) in
  let unique := if is_unique then "UNIQUE " else "" in
  "CREATE " +:+ unique +:+ "INDEX " +:+ quoted_index +:+ " ON " +:+
  quoted_table +:+ " (" +:+ columns_str +:+ ");".

End SchemaMigrator.

(** ** [DataMigrator] *)

(** A row is a dictionary from column names to cells; its items are kept in
    insertion order, the order in which the conversion loop visits them. *)
Definition row : Type := list (string * value).

(** The settings [migrate_table_data] reads from [data_config] and
    [error_config]. *)
Record config : Type := {
  batch_size : Z;
  chunk_size : Z;
  max_retries : Z;
  retry_delay : Z;
  continue_on_error : bool
}.

(** A call made to a collaborator, with the arguments that vary. *)
Inductive call : Type :=
  | GetTableData (offset limit : Z)
  | InsertBatch (data : list row) (batch : Z).

(** The two clients, for one table of one schema.  The answers of the calls
    made inside the loop may change from one iteration to the next: they are
    indexed by the number of the iteration that makes the call. *)
Record clients : Type := {
  get_table_count : outcome Z;
  get_table_schema : outcome table_schema;
  get_table_data : nat -> Z -> Z -> outcome (list row);
  insert_batch : nat -> list row -> Z -> outcome Z
}.

Module DataMigrator.

(** [_normalize_postgres_type]. *)
Definition _normalize_postgres_type (data_type : string) : string :=
  let normalized := PyStr.lower data_type in
  if decide (normalized = "timestamp with time zone") then "timestamptz"
  else if decide (normalized = "timestamp without time zone") then "timestamp"
  else normalized.

Definition or_text (s : string) : string :=
  if PyStr.is_empty s then "text" else s.

(** The loop of [_get_column_type_map]. *)
Fixpoint column_type_loop (ignore_columns : list string)
    (cols : list column_info) (column_types : gmap string string)
  : gmap string string :=
  match cols with
  | [] => column_types
  | column :: rest =>
      match column_name column with
      | Some col_name =>
          if PyStr.is_empty col_name || bool_decide (col_name ∈ ignore_columns)
          then column_type_loop ignore_columns rest column_types
          else
            let data_type :=
              _normalize_postgres_type (default "" (data_type column)) in
            column_type_loop ignore_columns rest
              (<[col_name := or_text data_type]> column_types)
      | None => column_type_loop ignore_columns rest column_types
      end
  end.

(** The conversion of one chunk: every cell of every row goes through
    [convert_value] with the type recorded for its column, [text] when
    none is. *)
Definition convert_row (column_types : gmap string string) (r : row) : row :=
  (fun item : string * value =>
     let postgres_type := or_text (default "" (column_types !! item.1)) in
     (item.1, TypeConverter.convert_value item.2 postgres_type)) <$> r.

Definition convert_data (column_types : gmap string string)
    (data : list row) : list row :=
  convert_row column_types <$> data.

(** The local variables of the loop, the number of the current iteration
    and the calls made so far, oldest first. *)
Record loop_state : Type := {
  migrated : Z;
  failed : Z;
  retry_count : Z;
  iteration : nat;
  trace : list call
}.

Inductive control : Type :=
  | Continue (st : loop_state)
  | Break (st : loop_state).

(** The number of [insert_batch] calls in a trace. *)
Fixpoint insert_attempts (calls : list call) : nat :=
  match calls with
  | [] => O
  | InsertBatch _ _ :: rest => S (insert_attempts rest)
  | GetTableData _ _ :: rest => insert_attempts rest
  end.

Definition state_of (c : control) : loop_state :=
  match c with Continue st => st | Break st => st end.

Definition log (c : call) (st : loop_state) : loop_state :=
  {| migrated := migrated st; failed := failed st;
     retry_count := retry_count st; iteration := iteration st;
     trace := trace st ++ [c] |}.

Definition next_iteration (st : loop_state) : loop_state :=
  {| migrated := migrated st; failed := failed st;
     retry_count := retry_count st; iteration := S (iteration st);
     trace := trace st |}.

Definition add_failed (n : Z) (st : loop_state) : loop_state :=
  {| migrated := migrated st; failed := failed st + n;
     retry_count := retry_count st; iteration := iteration st;
     trace := trace st |}.

Definition set_retry_count (n : Z) (st : loop_state) : loop_state :=
  {| migrated := migrated st; failed := failed st;
     retry_count := n; iteration := iteration st;
     trace := trace st |}.

Definition add_migrated (n : Z) (st : loop_state) : loop_state :=
  {| migrated := migrated st + n; failed := failed st;
     retry_count := retry_count st; iteration := iteration st;
     trace := trace st |}.

Section Run.

Variable cfg : config.
Variable env : clients.
Variable column_types : gmap string string.
Variable total_count : Z.

(** The [except Exception] handler. *)
Definition on_exception (st : loop_state) : control :=
  let st := add_failed (chunk_size cfg) st in
  if continue_on_error cfg then Continue (next_iteration st)
  else Break (next_iteration st).

(** One pass through the body of the [while] loop.  [time.sleep] raises
    [ValueError] on a negative delay, inside the [try]. *)
Definition loop_body (st : loop_state) : control :=
  let st := log (GetTableData (migrated st) (chunk_size cfg)) st in
  match get_table_data env (iteration st) (migrated st) (chunk_size cfg) with
  | Raised _ => on_exception st
  | Returned [] => Break (next_iteration st)
  | Returned data =>
      let converted_data := convert_data column_types data in
      let st := log (InsertBatch converted_data (batch_size cfg)) st in
      match insert_batch env (iteration st) converted_data (batch_size cfg) with
      | Raised _ => on_exception st
      | Returned inserted =>
          if inserted =? 0 then
            let st := add_failed (Z.of_nat (length converted_data)) st in
            if retry_count st <? max_retries cfg then
              let st := set_retry_count (retry_count st + 1) st in
              if retry_delay cfg <? 0 then on_exception st
              else Continue (next_iteration st)
            else Break (next_iteration st)
          else
            Continue (next_iteration
                        (set_retry_count 0 (add_migrated inserted st)))
      end
  end.

(** The [while migrated < total_count] loop; [None] when the fuel runs out
    before the loop is left. *)
Fixpoint run_loop (fuel : nat) (st : loop_state) : option loop_state :=
  if migrated st <? total_count then
    match fuel with
    | O => None
    | S fuel' =>
        match loop_body st with
        | Continue st' => run_loop fuel' st'
        | Break st' => Some st'
        end
    end
  else Some st.

End Run.

Definition initial_state : loop_state :=
  {| migrated := 0; failed := 0; retry_count := 0; iteration := O; trace := [] |}.

(** The dictionary returned after the loop. *)
Definition summary (name : string) (total_count : Z) (st : loop_state)
  : gmap string value :=
  {[ "table_name" := VStr name;
     "status" := VStr (if failed st =? 0 then "success" else "partial");
     "migrated" := VInt (migrated st);
     "failed" := VInt (failed st);
     "total" := VInt total_count ]}.

(** The dictionary returned for a table without rows. *)
Definition skipped (name : string) : gmap string value :=
  {[ "table_name" := VStr name; "status" := VStr "skipped" ]}.

(** [migrate_table_data]: the returned dictionary together with the calls
    made inside the loop.  An exception of [get_table_count] or
    [get_table_schema] is not caught. *)
Definition migrate_table_data (cfg : config) (env : clients)
    (name : string) (ignore_columns : list string) (fuel : nat)
  : option (outcome (gmap string value * list call)) :=
  match get_table_count env with
  | Raised e => Some (Raised e)
  | Returned total_count =>
      if total_count =? 0 then Some (Returned (skipped name, []))
      else
        match get_table_schema env with
        | Raised e => Some (Raised e)
        | Returned schema_info =>
            let column_types :=
              column_type_loop ignore_columns (columns schema_info) ∅ in
            st ← run_loop cfg env column_types total_count fuel initial_state;
            Some (Returned (summary name total_count st, trace st))
        end
  end.

(** What a finished call handed back: the dictionary, one of its fields,
    and the calls made inside the loop. *)
Definition returned_dict (out : option (outcome (gmap string value * list call)))
  : option (gmap string value) :=
  match out with
  | Some (Returned (r, _)) => Some r
  | _ => None
  end.

Definition field (key : string)
    (out : option (outcome (gmap string value * list call))) : option value :=
  r ← returned_dict out; r !! key.

Definition calls_made (out : option (outcome (gmap string value * list call)))
  : list call :=
  match out with
  | Some (Returned (_, calls)) => calls
  | _ => []
  end.

End DataMigrator.

(** ** Reading a quoted identifier back

    The target reads an identifier between backticks and takes two
    consecutive backticks inside it for one. *)
Module Identifier.

Fixpoint unescape (s : string) : option string :=
  match s with
  | EmptyString => Some ""
  | String c s' =>
      if decide (c = "`"%char) then
        match s' with
        | String d s'' =>
            if decide (d = "`"%char) then String "`"%char <$> unescape s''
            else None
        | EmptyString => None
        end
      else String c <$> unescape s'
  end.

Definition unquote (q : string) : option string :=
  match q with
  | String c body =>
      if decide (c = "`"%char) then
        if PyStr.endswith_char body "`"%char
        then unescape (PyStr.drop_last body) else None
      else None
  | EmptyString => None
  end.

End Identifier.

(** ** Sample inputs *)
Module Samples.

(** An array column as the catalogue describes it: [text[]]. *)
Definition text_array_column : column_info :=
  {| column_name := Some "tags"; data_type := Some "ARRAY";
     udt_name := Some "_text"; character_maximum_length := None;
     numeric_precision := None; numeric_scale := None;
     is_nullable := Some "YES"; column_default := None |}.

(** A part of the shipped mapping table. *)
Definition mapping : gmap string string :=
  {[ "integer" := "INT"; "bigint" := "BIGINT";
     "varchar" := "VARCHAR({length})";
     "decimal" := "DECIMAL({precision},{scale})"; "text" := "LONGTEXT";
     "timestamp" := "DATETIME"; "boolean" := "TINYINT(1)" ]}.

(** [order_no integer NOT NULL DEFAULT nextval(...)], outside the key. *)
Definition order_no_column : column_info :=
  {| column_name := Some "order_no"; data_type := Some "integer";
     udt_name := Some "int4"; character_maximum_length := None;
     numeric_precision := Some 32; numeric_scale := Some 0;
     is_nullable := Some "NO";
     column_default := Some "nextval('orders_order_no_seq'::regclass)" |}.

(** [id integer NOT NULL DEFAULT nextval(...)], the key. *)
Definition id_column : column_info :=
  {| column_name := Some "id"; data_type := Some "integer";
     udt_name := Some "int4"; character_maximum_length := None;
     numeric_precision := Some 32; numeric_scale := Some 0;
     is_nullable := Some "NO";
     column_default := Some "nextval('orders_id_seq'::regclass)" |}.

(** [created_at timestamp DEFAULT now()]. *)
Definition created_at_column : column_info :=
  {| column_name := Some "created_at";
     data_type := Some "timestamp without time zone";
     udt_name := Some "timestamp"; character_maximum_length := None;
     numeric_precision := None; numeric_scale := None;
     is_nullable := Some "YES"; column_default := Some "now()" |}.

(** [status varchar(32) NOT NULL DEFAULT 'pending'::character varying]. *)
Definition status_column : column_info :=
  {| column_name := Some "status"; data_type := Some "character varying";
     udt_name := Some "varchar"; character_maximum_length := Some 32;
     numeric_precision := None; numeric_scale := None;
     is_nullable := Some "NO";
     column_default := Some "'pending'::character varying" |}.

Definition orders_schema : table_schema :=
  {| table_name := "orders";
     columns := [id_column; order_no_column; status_column;
                 created_at_column; text_array_column];
     primary_keys := ["id"] |}.

(** The settings of the test suite. *)
Definition settings : config :=
  {| batch_size := 1000; chunk_size := 100; max_retries := 3;
     retry_delay := 5; continue_on_error := false |}.

Definition settings_continue : config :=
  {| batch_size := 1000; chunk_size := 100; max_retries := 3;
     retry_delay := 5; continue_on_error := true |}.

Definition users_schema : table_schema :=
  {| table_name := "users";
     columns :=
       [ {| column_name := Some "id"; data_type := Some "integer";
            udt_name := Some "int4"; character_maximum_length := None;
            numeric_precision := Some 32; numeric_scale := Some 0;
            is_nullable := Some "NO"; column_default := None |};
         {| column_name := Some "is_active"; data_type := Some "boolean";
            udt_name := Some "bool"; character_maximum_length := None;
            numeric_precision := None; numeric_scale := None;
            is_nullable := Some "YES"; column_default := None |} ];
     primary_keys := ["id"] |}.

Definition two_rows : list row :=
  [ [("id", VInt 1); ("is_active", VBool true)];
    [("id", VInt 2); ("is_active", VBool false)] ].

Definition two_rows_converted : list row :=
  [ [("id", VInt 1); ("is_active", VInt 1)];
    [("id", VInt 2); ("is_active", VInt 0)] ].

(** Two rows in the source; every insertion reports zero rows. *)
Definition all_inserts_fail : clients :=
  {| get_table_count := Returned 2;
     get_table_schema := Returned users_schema;
     get_table_data := fun _ _ _ => Returned two_rows;
     insert_batch := fun _ _ _ => Returned 0 |}.

(** Two rows in the source; every read raises. *)
Definition reads_always_raise : clients :=
  {| get_table_count := Returned 2;
     get_table_schema := Returned users_schema;
     get_table_data := fun _ _ _ => Raised DatabaseError;
     insert_batch := fun _ rows _ => Returned (Z.of_nat (length rows)) |}.

(** Two rows in the source; the first read raises, later ones succeed. *)
Definition first_read_raises : clients :=
  {| get_table_count := Returned 2;
     get_table_schema := Returned users_schema;
     get_table_data := fun i _ _ =>
       match i with O => Raised DatabaseError | S _ => Returned two_rows end;
     insert_batch := fun _ rows _ => Returned (Z.of_nat (length rows)) |}.

(** No row in the source. *)
Definition empty_table : clients :=
  {| get_table_count := Returned 0;
     get_table_schema := Returned users_schema;
     get_table_data := fun _ _ _ => Returned [];
     insert_batch := fun _ rows _ => Returned (Z.of_nat (length rows)) |}.

End Samples.

(** ** Letter case of a rule *)

(** Whether a text holds a capital ASCII letter. *)
Fixpoint has_upper (s : string) : bool :=
  match s with
  | EmptyString => false
  | String c s' => PyStr.is_upper c || has_upper s'
  end.

(** ** More sample inputs *)
Module Samples2.

(** A mapping table whose decimal template names fields the code does not
    pass, and whose [numeric] entry is never read. *)
Definition odd_mapping : gmap string string :=
  {[ "decimal" := "NUMBER({p},{s})"; "numeric" := "IGNORED";
     "interval" := "VARCHAR{64}" ]}.

Definition amount_column : column_info :=
  {| column_name := Some "amount"; data_type := Some "numeric";
     udt_name := Some "numeric"; character_maximum_length := None;
     numeric_precision := Some 12; numeric_scale := Some 2;
     is_nullable := Some "NO"; column_default := None |}.

(** The count says two rows, the reads return none. *)
Definition empty_source : clients :=
  {| get_table_count := Returned 2;
     get_table_schema := Returned Samples.users_schema;
     get_table_data := fun _ _ _ => Returned [];
     insert_batch := fun _ rows _ => Returned (Z.of_nat (length rows)) |}.

(** A source that holds [rows] and serves them by offset and limit, and a
    target that accepts whatever it is given. *)
Definition table_source (rows : list row) : clients :=
  {| get_table_count := Returned (Z.of_nat (length rows));
     get_table_schema := Returned Samples.users_schema;
     get_table_data := fun _ offset limit =>
       Returned (take (Z.to_nat limit) (drop (Z.to_nat offset) rows));
     insert_batch := fun _ data _ => Returned (Z.of_nat (length data)) |}.

Definition three_rows : list row :=
  [ [("id", VInt 1); ("is_active", VBool true)];
    [("id", VInt 2); ("is_active", VBool false)];
    [("id", VInt 3); ("is_active", VNone)] ].

(** Chunks of two rows. *)
Definition small_chunks : config :=
  {| batch_size := 1000; chunk_size := 2; max_retries := 3;
     retry_delay := 5; continue_on_error := false |}.

(** A source whose row count cannot be read. *)
Definition count_raises : clients :=
  {| get_table_count := Raised DatabaseError;
     get_table_schema := Returned Samples.users_schema;
     get_table_data := fun _ _ _ => Returned [];
     insert_batch := fun _ data _ => Returned (Z.of_nat (length data)) |}.

(** A run of two tables: the first is served, the second cannot be
    counted. *)
Definition two_table_run (i : nat) (table : string) : clients :=
  match i with
  | O => table_source three_rows
  | S _ => count_raises
  end.

End Samples2.

(** ** Casts *)

(** A text that the pattern [::[A-Za-z0-9_ ]+] matches from its first to
    its last character. *)
Definition is_cast (suffix : string) : bool :=
  match suffix with
  | String a (String b (String d t)) =>
      bool_decide (a = ":"%char) && bool_decide (b = ":"%char) &&
      SchemaMigrator.all_cast_chars (String d t)
  | _ => false
  end.

(** ** [main.get_ignored_columns] *)
Module Main.

(** The inner loop: the names of the columns to ignore, in catalogue
    order. *)
Fixpoint ignored_names (ignore_types : list string) (cols : list column_info)
  : outcome (list string) :=
  match cols with
  | [] => Returned []
  | col :: rest =>
      if TypeConverter.should_ignore_column col ignore_types then
        name <-! getitem "column_name" (column_name col);
        names <-! ignored_names ignore_types rest;
        Returned (name :: names)
      else ignored_names ignore_types rest
  end.

(** The loop over the tables; [get_table_schema] is the source client's
    answer for a table, and a table without ignored columns gets no
    entry. *)
Fixpoint ignored_columns_loop
    (get_table_schema : string -> outcome table_schema)
    (ignore_types : list string) (tables : list string)
    (ignored_columns_map : gmap string (list string))
  : outcome (gmap string (list string)) :=
  match tables with
  | [] => Returned ignored_columns_map
  | table :: rest =>
      schema_info <-! get_table_schema table;
      ignored_cols <-! ignored_names ignore_types (columns schema_info);
      ignored_columns_loop get_table_schema ignore_types rest
        (match ignored_cols with
         | [] => ignored_columns_map
         | _ => <[table := ignored_cols]> ignored_columns_map
         end)
  end.

Definition get_ignored_columns
    (get_table_schema : string -> outcome table_schema)
    (tables : list string) (ignore_types : list string)
  : outcome (gmap string (list string)) :=
  ignored_columns_loop get_table_schema ignore_types tables ∅.

End Main.

(** ** [SchemaMigrator.migrate_schema] *)
Module SchemaRun.

(** An index as the source client reports it. *)
Record index_info : Type := {
  index_name : string;
  index_columns : list string;
  is_unique : bool
}.

(** The dictionary [migrate_schema] fills in; an entry of
    [indexes_failed] is the pair of its table and index names. *)
Record schema_results : Type := {
  success : list string;
  failed : list string;
  ignored_columns : gmap string (list string);
  indexes_failed : list (string * string)
}.

(** A statement handed to the target client. *)
Inductive ddl : Type :=
  | CreateTable (sql : string)
  | CreateIndex (sql : string).

Section Clients.

(** The clients are stateful: a call answers from the current state of the
    world and leaves a new one. *)
Variable W : Type.
Variable get_table_schema : string -> W -> outcome table_schema * W.
Variable create_table : string -> W -> outcome bool * W.
Variable get_table_indexes : string -> W -> outcome (list index_info) * W.
Variable create_index : string -> W -> outcome bool * W.
Variable type_mapping : gmap string string.

(** The results so far, the world, and the statements sent, oldest
    first. *)
Record run_state : Type := {
  results : schema_results;
  world : W;
  sent : list ddl
}.

Definition set_world (w : W) (st : run_state) : run_state :=
  {| results := results st; world := w; sent := sent st |}.

Definition send (d : ddl) (st : run_state) : run_state :=
  {| results := results st; world := world st; sent := sent st ++ [d] |}.

Definition add_success (table : string) (st : run_state) : run_state :=
  {| results :=
       {| success := success (results st) ++ [table];
          failed := failed (results st);
          ignored_columns := ignored_columns (results st);
          indexes_failed := indexes_failed (results st) |};
     world := world st; sent := sent st |}.

Definition add_failed (table : string) (st : run_state) : run_state :=
  {| results :=
       {| success := success (results st);
          failed := failed (results st) ++ [table];
          ignored_columns := ignored_columns (results st);
          indexes_failed := indexes_failed (results st) |};
     world := world st; sent := sent st |}.

Definition set_ignored (table : string) (names : list string)
    (st : run_state) : run_state :=
  {| results :=
       {| success := success (results st);
          failed := failed (results st);
          ignored_columns := <[table := names]> (ignored_columns (results st));
          indexes_failed := indexes_failed (results st) |};
     world := world st; sent := sent st |}.

Definition add_index_failed (table index : string) (st : run_state)
  : run_state :=
  {| results :=
       {| success := success (results st);
          failed := failed (results st);
          ignored_columns := ignored_columns (results st);
          indexes_failed := indexes_failed (results st) ++ [(table, index)] |};
     world := world st; sent := sent st |}.

(** [any(col in ignored_columns for col in index_columns)]. *)
Definition uses_ignored (ignored : list string) (index : index_info) : bool :=
  existsb (fun col => bool_decide (col ∈ ignored)) (index_columns index).

Definition index_sql (table : string) (index : index_info) : string :=
  SchemaMigrator._generate_create_index_sql table (index_name index)
    (index_columns index) (is_unique index).

(** The loop over the indexes of a created table; the first component is
    the exception that ended it, if any. *)
Fixpoint index_loop (table : string) (ignored : list string)
    (indexes : list index_info) (st : run_state) : option exn * run_state :=
  match indexes with
  | [] => (None, st)
  | index :: rest =>
      if uses_ignored ignored index then index_loop table ignored rest st
      else
        let sql := index_sql table index in
        let answer := create_index sql (world st) in
        let st := send (CreateIndex sql) (set_world answer.2 st) in
        match answer.1 with
        | Raised e => (Some e, st)
        | Returned index_success =>
            if index_success then index_loop table ignored rest st
            else index_loop table ignored rest
                   (add_index_failed table (index_name index) st)
        end
  end.

(** The body of the loop over the tables, with its [try]/[except]. *)
Definition migrate_one (ignore_types : list string) (table : string)
    (st : run_state) : run_state :=
  let answer := get_table_schema table (world st) in
  let st := set_world answer.2 st in
  match answer.1 with
  | Raised _ => add_failed table st
  | Returned pg_schema =>
      match SchemaMigrator.generate_create_table_sql type_mapping pg_schema
              ignore_types with
      | Raised _ => add_failed table st
      | Returned (create_sql, ignored) =>
          let st := set_ignored table ignored st in
          let answer := create_table create_sql (world st) in
          let st := send (CreateTable create_sql) (set_world answer.2 st) in
          match answer.1 with
          | Raised _ => add_failed table st
          | Returned false => add_failed table st
          | Returned true =>
              let st := add_success table st in
              let answer := get_table_indexes table (world st) in
              let st := set_world answer.2 st in
              match answer.1 with
              | Raised _ => add_failed table st
              | Returned indexes =>
                  match index_loop table ignored indexes st with
                  | (Some _, st) => add_failed table st
                  | (None, st) => st
                  end
              end
          end
      end
  end.

Definition initial (w : W) : run_state :=
  {| results :=
       {| success := []; failed := []; ignored_columns := ∅;
          indexes_failed := [] |};
     world := w; sent := [] |}.

(** [migrate_schema]; [ignore_types] is [None] when the argument is left
    out. *)
Definition migrate_schema (tables : list string)
    (ignore_types : option (list string)) (w : W) : run_state :=
  let ignore_types := default ["json"; "jsonb"; "array"] ignore_types in
  foldl (fun st table => migrate_one ignore_types table st) (initial w) tables.

End Clients.

Arguments results {W} _.
Arguments world {W} _.
Arguments sent {W} _.
Arguments set_world {W} _ _.
Arguments send {W} _ _.
Arguments add_index_failed {W} _ _ _.
Arguments initial {W} _.

End SchemaRun.

(** ** Reading a trace of the pipeline *)
Module Trace.

(** The number of [get_table_data] calls in a trace. *)
Fixpoint reads (calls : list call) : nat :=
  match calls with
  | [] => O
  | GetTableData _ _ :: rest => S (reads rest)
  | InsertBatch _ _ :: rest => reads rest
  end.

(** The rows handed to [insert_batch], call after call. *)
Fixpoint inserted_rows (calls : list call) : list row :=
  match calls with
  | [] => []
  | InsertBatch data _ :: rest => data ++ inserted_rows rest
  | GetTableData _ _ :: rest => inserted_rows rest
  end.

(** A trace made of passes: a read with the chunk size as its limit,
    followed or not by the insertion of a chunk that is not empty, with
    the batch size. *)
Inductive passes (cfg : config) : list call -> Prop :=
  | passes_nil : passes cfg []
  | passes_read (calls : list call) (offset : Z) :
      passes cfg calls ->
      passes cfg (calls ++ [GetTableData offset (chunk_size cfg)])
  | passes_read_insert (calls : list call) (offset : Z) (data : list row) :
      passes cfg calls -> data <> [] ->
      passes cfg (calls ++ [GetTableData offset (chunk_size cfg);
                            InsertBatch data (batch_size cfg)]).

End Trace.

(** ** [DataMigrator.migrate_all_data] *)
Module DataRun.

(** The four lists of the returned dictionary. *)
Record all_results : Type := {
  all_success : list (gmap string value);
  all_failed : list (gmap string value);
  all_partial : list (gmap string value);
  all_skipped : list (gmap string value)
}.

Definition no_results : all_results :=
  {| all_success := []; all_failed := []; all_partial := [];
     all_skipped := [] |}.

(** The [if]/[elif] chain that files one result. *)
Definition file_result (status : value) (result : gmap string value)
    (results : all_results) : all_results :=
  if decide (status = VStr "success") then
    {| all_success := all_success results ++ [result];
       all_failed := all_failed results;
       all_partial := all_partial results;
       all_skipped := all_skipped results |}
  else if decide (status = VStr "partial") then
    {| all_success := all_success results;
       all_failed := all_failed results;
       all_partial := all_partial results ++ [result];
       all_skipped := all_skipped results |}
  else if decide (status = VStr "skipped") then
    {| all_success := all_success results;
       all_failed := all_failed results;
       all_partial := all_partial results;
       all_skipped := all_skipped results ++ [result] |}
  else
    {| all_success := all_success results;
       all_failed := all_failed results ++ [result];
       all_partial := all_partial results;
       all_skipped := all_skipped results |}.

(** The loop over the tables.  [envs i table] is how the clients behave
    for the [i]-th table of the run; an exception that
    [migrate_table_data] lets through ends the run, and so does a loop
    that does not end ([None]). *)
Fixpoint all_loop (cfg : config) (envs : nat -> string -> clients)
    (ignore_columns_map : gmap string (list string)) (fuel : nat)
    (i : nat) (tables : list string) (results : all_results)
  : option (outcome all_results) :=
  match tables with
  | [] => Some (Returned results)
  | table :: rest =>
      let ignore_columns := default [] (ignore_columns_map !! table) in
      match DataMigrator.migrate_table_data cfg (envs i table) table
              ignore_columns fuel with
      | None => None
      | Some (Raised e) => Some (Raised e)
      | Some (Returned (result, _)) =>
          match result !! "status" with
          | None => Some (Raised (KeyError "status"))
          | Some status =>
              all_loop cfg envs ignore_columns_map fuel (S i) rest
                (file_result status result results)
          end
      end
  end.

Definition migrate_all_data (cfg : config) (envs : nat -> string -> clients)
    (tables : list string) (ignore_columns_map : gmap string (list string))
    (fuel : nat) : option (outcome all_results) :=
  all_loop cfg envs ignore_columns_map fuel O tables no_results.

End DataRun.

(** ** Sample clients of the schema phase *)
Module Samples3.

(** Clients of the schema phase without a state of their own: the source
    reports the orders table and cannot list indexes, the target accepts
    every statement. *)
Definition orders_only (table : string) (w : unit)
  : outcome table_schema * unit :=
  (Returned Samples.orders_schema, w).

Definition accepts_all (sql : string) (w : unit) : outcome bool * unit :=
  (Returned true, w).

Definition no_index_listing (table : string) (w : unit)
  : outcome (list SchemaRun.index_info) * unit :=
  (Raised DatabaseError, w).

Definition orders_indexes : list SchemaRun.index_info :=
  [ {| SchemaRun.index_name := "idx_status";
       SchemaRun.index_columns := ["status"];
       SchemaRun.is_unique := false |};
    {| SchemaRun.index_name := "idx_tags";
       SchemaRun.index_columns := ["status"; "tags"];
       SchemaRun.is_unique := true |} ].

End Samples3.

(** ** [OceanBaseClient.insert_batch] *)
Module OceanBase.

(** [_quote_identifier] of the client, the same text as the migrator's. *)
Definition _quote_identifier (name : string) : string :=
  let escaped := PyStr.replace_char "`"%char "``" name in
  "`" +:+ escaped +:+ "`".

(** [row[col]]. *)
Fixpoint row_get (col : string) (r : row) : option value :=
  match r with
  | [] => None
  | (k, v) :: rest => if decide (k = col) then Some v else row_get col rest
  end.

(** [[row[col] for col in columns]]; [None] stands for the [KeyError] of a
    row without one of the columns. *)
Fixpoint row_values (columns : list string) (r : row)
  : option (list value) :=
  match columns with
  | [] => Some []
  | col :: rest =>
      v ← row_get col r; vs ← row_values rest r; Some (v :: vs)
  end.

(** [[[row[col] for col in columns] for row in batch]]. *)
Fixpoint batch_values (columns : list string) (batch : list row)
  : option (list (list value)) :=
  match batch with
  | [] => Some []
  | r :: rest =>
      vs ← row_values columns r; vss ← batch_values columns rest;
      Some (vs :: vss)
  end.

(** The INSERT statement of a batch. *)
Definition insert_sql (table_name : string) (columns : list string) : string :=
  let placeholders := PyStr.join ", " ((fun _ => "%s") <$> columns) in
  let columns_str := PyStr.join ", " (_quote_identifier <$> columns) in
  "INSERT INTO " +:+ _quote_identifier table_name +:+ " (" +:+ columns_str +:+
  ") VALUES (" +:+ placeholders +:+ ")".

(** The target is taken to be transactional: what [executemany] wrote is
    kept by [commit] and dropped by [rollback].  Its state is the list of
    committed rows, each with the statement that wrote it; [fails i] tells
    whether the [i]-th [executemany] of the call raises. *)
Definition store : Type := list (string * list value).

(** The [for] loop over the batches, [b] rows at a time. *)
Fixpoint batch_loop (fails : nat -> bool) (table_name : string) (b : nat)
    (fuel : nat) (i : nat) (data : list row) (inserted : Z) (db : store)
  : Z * store :=
  match fuel with
  | O => (inserted, db)
  | S fuel' =>
      match data with
      | [] => (inserted, db)
      | first :: _ =>
          let batch := take b data in
          let columns := first.*1 in
          match batch_values columns batch with
          | None => (0, db)
          | Some values =>
              if fails i then (0, db)
              else
                let sql := insert_sql table_name columns in
                batch_loop fails table_name b fuel' (S i) (drop b data)
                  (inserted + Z.of_nat (length batch))
                  (db ++ ((fun vs => (sql, vs)) <$> values))
          end
      end
  end.

(** [insert_batch]: the count returned and the store left behind.  A
    batch size of zero makes [range] raise inside the [try]; a negative
    one makes the range empty. *)
Definition insert_batch (fails : nat -> bool) (table_name : string)
    (data : list row) (batch_size : Z) (db : store) : Z * store :=
  match data with
  | [] => (0, db)
  | _ =>
      if batch_size =? 0 then (0, db)
      else if batch_size <? 0 then (0, db)
      else batch_loop fails table_name (Z.to_nat batch_size) (length data)
             O data 0 db
  end.

(** The rows a chunk of uniform rows leaves in the store. *)
Definition entries (table_name : string) (columns : list string)
    (data : list row) : store :=
  (fun r : row => (insert_sql table_name columns, r.*2)) <$> data.

End OceanBase.

(** ** Sample chunks for the target client *)
Module Samples4.

(** Whether the [i]-th [executemany] fails: only the second one does. *)
Definition second_fails (i : nat) : bool :=
  match i with
  | S O => true
  | _ => false
  end.

Definition never_fails (i : nat) : bool := false.

End Samples4.

(** ** ASCII texts *)

(** Whether every character of a text is an ASCII character; on such
    texts the case mappings of [PyStr] are those of Python. *)
Fixpoint is_ascii_text (s : string) : bool :=
  match s with
  | EmptyString => true
  | String c s' => (nat_of_ascii c <? 128)%nat && is_ascii_text s'
  end.

(** * Properties *)

(** ** Strings *)
Section StringFacts.

Lemma app_nil_l_str (s : string) : "" +:+ s = s.
Proof. reflexivity. Qed.

Lemma app_cons_str (c : ascii) (s t : string) :
  String c s +:+ t = String c (s +:+ t).
Proof. reflexivity. Qed.

Lemma app_empty_r (s : string) : s +:+ "" = s.
Proof.
  induction s as [|c s IH]; [done |]. by rewrite app_cons_str, IH.
Qed.

Lemma app_assoc_str (a b c : string) : (a +:+ b) +:+ c = a +:+ b +:+ c.
Proof.
  induction a as [|x a IH]; [done |]. by rewrite !app_cons_str, IH.
Qed.

Lemma is_empty_true (s : string) : PyStr.is_empty s = true <-> s = "".
Proof. destruct s; simpl; split; congruence. Qed.

Lemma startswith_app (p s : string) : PyStr.startswith (p +:+ s) p = true.
Proof.
  induction p as [|c p IH]; [by destruct s |].
  rewrite app_cons_str. simpl. by rewrite decide_True.
Qed.

Lemma contains_empty (hay : string) : PyStr.contains "" hay = true.
Proof. by destruct hay. Qed.

(** What is left of [a ++ y] after [rstrip] depends on whether [y] is all
    blanks. *)
Lemma rstrip_app (a y : string) :
  PyStr.rstrip (a +:+ y) =
  if PyStr.is_empty (PyStr.rstrip y) then PyStr.rstrip a
  else a +:+ PyStr.rstrip y.
Proof.
  induction a as [|c a IH].
  - rewrite app_nil_l_str. by destruct (PyStr.rstrip y).
  - rewrite app_cons_str. simpl. rewrite IH.
    destruct (PyStr.is_empty (PyStr.rstrip y)) eqn:E; [done |].
    rewrite app_cons_str.
    destruct a as [|d a].
    + rewrite app_nil_l_str.
      destruct (PyStr.rstrip y); [done |]. by rewrite andb_false_r.
    + rewrite app_cons_str. simpl. by rewrite andb_false_r.
Qed.

Lemma rstrip_keeps (a y : string) :
  PyStr.rstrip a = a -> a <> "" ->
  PyStr.rstrip (a +:+ y) = a +:+ PyStr.rstrip y.
Proof.
  intros Ha Hne. rewrite rstrip_app.
  destruct (PyStr.is_empty (PyStr.rstrip y)) eqn:E; [|done].
  apply is_empty_true in E. by rewrite E, app_empty_r.
Qed.

Lemma rstrip_snoc (s : string) (c : ascii) :
  PyStr.is_space c = false ->
  PyStr.rstrip (s +:+ String c "") = s +:+ String c "".
Proof.
  intros Hc. rewrite rstrip_app. simpl. by rewrite Hc.
Qed.

End StringFacts.

(** ** The ignore decision and the value conversion *)
Module ConverterFacts.
Import TypeConverter Samples.

(** The loop answers [True] exactly when it runs at least once and either
    the UDT name carries the array marker or some rule occurs in one of the
    two names. *)
Lemma ignore_loop_true (dt udt : string) (rules : list string) :
  ignore_loop dt udt rules = true <->
  rules <> [] /\
  (PyStr.startswith udt "_" = true \/
   exists r, r ∈ rules /\
     (PyStr.contains r dt = true \/ PyStr.contains r udt = true)).
Proof.
  induction rules as [|r rules IH]; simpl.
  - split; [done | by intros [? _]].
  - destruct (PyStr.contains r dt) eqn:Edt.
    { split; [|done]. intros _. split; [done |]. right. exists r.
      split; [left | by left]. }
    destruct (PyStr.contains r udt) eqn:Eudt.
    { split; [|done]. intros _. split; [done |]. right. exists r.
      split; [left | by right]. }
    destruct (PyStr.startswith udt "_") eqn:Emark.
    { split; [|done]. intros _. split; [done | by left]. }
    rewrite IH. split.
    + intros [_ [? | (r' & Hin & Hr')]]; [done |].
      split; [done |]. right. exists r'. split; [by right | done].
    + intros [_ [? | (r' & Hin & Hr')]]; [done |].
      apply elem_of_cons in Hin as [-> | Hin].
      { destruct Hr' as [Hr' | Hr']; congruence. }
      split; [by intros -> ; inversion Hin |].
      right. by exists r'.
Qed.

(** With at least one rule, the array marker alone decides. *)
Lemma should_ignore_array_marker (column : column_info) (rules : list string) :
  rules <> [] ->
  PyStr.startswith (PyStr.lower (default "" (udt_name column))) "_" = true ->
  should_ignore_column column rules = true.
Proof.
  intros Hne Hmark. unfold should_ignore_column.
  apply ignore_loop_true. split; [done | by left].
Qed.

(** Without rules the loop body never runs. *)
Lemma should_ignore_no_rules (column : column_info) :
  should_ignore_column column [] = false.
Proof. reflexivity. Qed.

(** C1: at the empty rule list [should_ignore_column] answers [False] for a
    column whose UDT name starts with the array marker, although the same
    column is ignored under any non-empty rule list. *)
Theorem should_ignore_array_empty_rules :
  PyStr.startswith
    (PyStr.lower (default "" (udt_name text_array_column))) "_" = true /\
  should_ignore_column text_array_column [] = false /\
  should_ignore_column text_array_column ["json"] = true.
Proof. by vm_compute. Qed.

(** C7: [should_ignore_column] is monotone in the rule list: a column
    ignored under [rules] is ignored under every list that contains all the
    rules of [rules]. *)
Theorem should_ignore_monotone (column : column_info)
    (rules rules' : list string) :
  rules ⊆ rules' ->
  should_ignore_column column rules = true ->
  should_ignore_column column rules' = true.
Proof.
  unfold should_ignore_column. intros Hsub.
  rewrite !ignore_loop_true.
  intros [Hne [Hmark | (r & Hin & Hr)]].
  - split; [|by left].
    destruct rules as [|r0 rules]; [done |].
    intros ->. specialize (Hsub r0 ltac:(left)). inversion Hsub.
  - split.
    + intros ->. specialize (Hsub r Hin). inversion Hsub.
    + right. exists r. split; [by apply Hsub | done].
Qed.

Lemma should_ignore_monotone_witness :
  should_ignore_column text_array_column ["json"; "jsonb"] = true.
Proof.
  apply (should_ignore_monotone text_array_column ["json"] ["json"; "jsonb"]).
  - intros x Hx. apply elem_of_cons. left. by apply list_elem_of_singleton in Hx.
  - by vm_compute.
Defined.

(** C9: for the source type [boolean], [convert_value] answers [None] for
    [None] (as it does for every source type) and otherwise 1 or 0 by the
    truth value of the cell, whatever kind of value the cell is. *)
Theorem convert_value_boolean (v : value) (postgres_type : string) :
  convert_value VNone postgres_type = VNone /\
  convert_value v "boolean" =
    (if decide (v = VNone) then VNone
     else if truthy v then VInt 1 else VInt 0) /\
  convert_value (VInt 0) "boolean" = VInt 0 /\
  convert_value (VStr "") "boolean" = VInt 0 /\
  convert_value (VInt 7) "boolean" = VInt 1 /\
  convert_value (VStr "f") "boolean" = VInt 1.
Proof.
  split; [done |]. split; [| by vm_compute].
  destruct v; by vm_compute.
Qed.

End ConverterFacts.

(** ** DDL generation *)
Module SchemaFacts.
Import SchemaMigrator Samples.

Lemma quote_unfold (name : string) :
  _quote_identifier name =
  String "`"%char (PyStr.replace_char "`"%char "``" name +:+ "`").
Proof. reflexivity. Qed.

Lemma quote_nonempty (name : string) : _quote_identifier name <> "".
Proof. by rewrite quote_unfold. Qed.

Lemma quote_rstrip (name : string) :
  PyStr.rstrip (_quote_identifier name) = _quote_identifier name.
Proof.
  rewrite quote_unfold.
  change (String "`"%char (?e +:+ "`")) with (String "`"%char e +:+ "`").
  by apply rstrip_snoc.
Qed.

(** [strip] on a column line: the indentation goes, the quoted name stays,
    trailing blanks go. *)
Lemma strip_column_line (name rest : string) :
  PyStr.strip ("    " +:+ _quote_identifier name +:+ rest) =
  _quote_identifier name +:+ PyStr.rstrip rest.
Proof.
  unfold PyStr.strip.
  assert (PyStr.lstrip ("    " +:+ _quote_identifier name +:+ rest) =
          _quote_identifier name +:+ rest) as ->.
  { rewrite quote_unfold. reflexivity. }
  apply rstrip_keeps; [apply quote_rstrip | apply quote_nonempty].
Qed.

Lemma mapM_Returned {A B : Type} (f : A -> outcome B) (l : list A)
    (bs : list B) :
  mapM f l = Returned bs -> Forall2 (fun a b => f a = Returned b) l bs.
Proof.
  revert bs. induction l as [|a l IH]; simpl; intros bs H.
  - injection H as <-. constructor.
  - destruct (f a) as [b|e] eqn:Ea; simpl in H; [|done].
    destruct (mapM f l) as [bs'|e] eqn:El; simpl in H; [|done].
    injection H as <-. constructor; [done | by apply IH].
Qed.

(** The line of a kept column, with the accesses to the descriptor
    resolved. *)
Lemma column_def_eq (type_mapping : gmap string string) (pks : list string)
    (col : column_info) (name ty nu target : string) :
  column_name col = Some name ->
  data_type col = Some ty ->
  is_nullable col = Some nu ->
  TypeMapping.convert_column_type type_mapping ty col = Returned target ->
  column_def type_mapping pks col =
  Returned
    (_quote_identifier name +:+
     PyStr.rstrip
       (" " +:+
        (if bool_decide (name ∈ pks) &&
            is_serial (PyStr.lower ty) (default "" (column_default col))
         then target +:+ " AUTO_INCREMENT" else target) +:+
        " " +:+ (if bool_decide (nu = "NO") then "NOT NULL" else "") +:+
        " " +:+
        (if is_serial (PyStr.lower ty) (default "" (column_default col))
         then ""
         else if PyStr.is_empty
                   (_normalize_default (PyStr.lower ty)
                      (default "" (column_default col)))
              then ""
              else "DEFAULT " +:+
                   _normalize_default (PyStr.lower ty)
                     (default "" (column_default col))))).
Proof.
  intros Hn Ht Hnu Hc. unfold column_def.
  rewrite Hn, Ht, Hnu. simpl. rewrite Hc. simpl.
  by rewrite strip_column_line.
Qed.

Lemma column_def_quoted (type_mapping : gmap string string)
    (pks : list string) (col : column_info) (d : string) :
  column_def type_mapping pks col = Returned d ->
  exists name rest,
    column_name col = Some name /\ d = _quote_identifier name +:+ rest.
Proof.
  unfold column_def. intros H.
  destruct (column_name col) as [name|]; simpl in H; [|done].
  destruct (data_type col) as [ty|]; simpl in H; [|done].
  destruct (is_nullable col) as [nu|]; simpl in H; [|done].
  destruct (TypeMapping.convert_column_type type_mapping ty col)
    as [target|]; simpl in H; [|done].
  injection H as <-. rewrite strip_column_line. by eauto.
Qed.

(** A text that ends in a visible character survives [rstrip], whatever is
    put in front of it. *)
Definition solid (y : string) : Prop := PyStr.rstrip y = y /\ y <> "".

Lemma solid_app (a y : string) : solid y -> solid (a +:+ y).
Proof.
  intros [Hy Hne]. split.
  - rewrite rstrip_app, Hy.
    destruct (PyStr.is_empty y) eqn:E; [|done].
    by apply is_empty_true in E.
  - destruct a; [done |]. by rewrite app_cons_str.
Qed.

Lemma solid_rstrip (y : string) : solid y -> PyStr.rstrip y = y.
Proof. by intros [? _]. Qed.

Lemma is_serial_false (base_type d : string) :
  base_type <> "serial" -> base_type <> "bigserial" ->
  PyStr.contains "nextval(" (PyStr.lower d) = false ->
  is_serial base_type d = false.
Proof.
  intros H1 H2 H3. unfold is_serial.
  by rewrite !bool_decide_eq_false_2, H3.
Qed.

Lemma normalize_default_now (base_type d : string) :
  PyStr.lower (default_expr d) = "now()" ->
  _normalize_default base_type d = "CURRENT_TIMESTAMP".
Proof.
  intros H. unfold _normalize_default.
  destruct d as [|c d]; [done |]. simpl PyStr.is_empty. cbv iota. rewrite H.
  by destruct (bool_decide (base_type = "boolean")).
Qed.

Lemma normalize_default_pending (base_type : string) :
  _normalize_default base_type "'pending'::character varying" = "'pending'".
Proof.
  unfold _normalize_default. simpl PyStr.is_empty. cbv iota.
  replace (default_expr "'pending'::character varying") with "'pending'"
    by (by vm_compute).
  by destruct (bool_decide (base_type = "boolean")).
Qed.

(** *** Auto-increment *)

(** C3 as stated fails: a column with a sequence default outside the
    primary key gets no [AUTO_INCREMENT]. *)
Lemma serial_outside_key_no_auto_increment :
  is_serial (PyStr.lower "integer")
    (default "" (column_default order_no_column)) = true /\
  column_def mapping ["id"] order_no_column =
    Returned "`order_no` INT NOT NULL" /\
  PyStr.contains "AUTO_INCREMENT" "`order_no` INT NOT NULL" = false.
Proof. by vm_compute. Qed.

(** C3, amended: the line of a column inferred as auto-increment carries no
    DEFAULT clause, and its type carries [AUTO_INCREMENT] exactly when the
    column is one of the primary-key columns. *)
Theorem auto_increment_column_def (type_mapping : gmap string string)
    (pks : list string) (col : column_info) (name ty nu target : string) :
  column_name col = Some name ->
  data_type col = Some ty ->
  is_nullable col = Some nu ->
  TypeMapping.convert_column_type type_mapping ty col = Returned target ->
  is_serial (PyStr.lower ty) (default "" (column_default col)) = true ->
  column_def type_mapping pks col =
  Returned
    (_quote_identifier name +:+
     PyStr.rstrip
       (" " +:+
        (if bool_decide (name ∈ pks) then target +:+ " AUTO_INCREMENT"
         else target) +:+
        " " +:+ (if bool_decide (nu = "NO") then "NOT NULL" else "") +:+ " ")).
Proof.
  intros Hn Ht Hnu Hc Hs.
  rewrite (column_def_eq _ _ _ _ _ _ _ Hn Ht Hnu Hc), Hs.
  by rewrite andb_true_r.
Qed.

Lemma auto_increment_column_def_witness :
  column_def mapping ["id"] id_column =
    Returned "`id` INT AUTO_INCREMENT NOT NULL" /\
  column_def mapping ["id"] order_no_column =
    Returned "`order_no` INT NOT NULL".
Proof.
  split.
  - rewrite (auto_increment_column_def mapping ["id"] id_column
               "id" "integer" "NO" "INT");
      [by vm_compute | reflexivity | reflexivity | reflexivity
      | by vm_compute | by vm_compute].
  - rewrite (auto_increment_column_def mapping ["id"] order_no_column
               "order_no" "integer" "NO" "INT");
      [by vm_compute | reflexivity | reflexivity | reflexivity
      | by vm_compute | by vm_compute].
Defined.

(** *** Default values *)

(** The line of a column that is not auto-increment: a default that
    reads [now()] once blanks, an enclosing pair of parentheses and a
    trailing cast are removed becomes [DEFAULT CURRENT_TIMESTAMP], and the
    default ['pending'::character varying] becomes [DEFAULT 'pending'],
    cast removed and letters untouched. *)
Theorem default_normalization (type_mapping : gmap string string)
    (pks : list string) (col : column_info) (name ty nu target : string) :
  column_name col = Some name ->
  data_type col = Some ty ->
  is_nullable col = Some nu ->
  TypeMapping.convert_column_type type_mapping ty col = Returned target ->
  PyStr.lower ty <> "serial" ->
  PyStr.lower ty <> "bigserial" ->
  (forall d,
     column_default col = Some d ->
     PyStr.contains "nextval(" (PyStr.lower d) = false ->
     PyStr.lower (default_expr d) = "now()" ->
     _normalize_default (PyStr.lower ty) d = "CURRENT_TIMESTAMP" /\
     column_def type_mapping pks col =
     Returned
       (_quote_identifier name +:+ " " +:+ target +:+ " " +:+
        (if bool_decide (nu = "NO") then "NOT NULL" else "") +:+
        " DEFAULT CURRENT_TIMESTAMP")) /\
  (column_default col = Some "'pending'::character varying" ->
     _normalize_default (PyStr.lower ty) "'pending'::character varying" =
       "'pending'" /\
     column_def type_mapping pks col =
     Returned
       (_quote_identifier name +:+ " " +:+ target +:+ " " +:+
        (if bool_decide (nu = "NO") then "NOT NULL" else "") +:+
        " DEFAULT 'pending'")) /\
  default_expr "now()" = "now()" /\
  default_expr " (NOW()) " = "NOW()" /\
  default_expr "(now()::timestamp without time zone)" = "now()" /\
  default_expr "'Pending'::character varying" = "'Pending'".
Proof.
  intros Hn Ht Hnu Hc Hs1 Hs2.
  split; [|split; [|by vm_compute]].
  - intros d Hd Hseq Hnow.
    split; [by apply normalize_default_now |].
    rewrite (column_def_eq _ _ _ _ _ _ _ Hn Ht Hnu Hc), Hd. simpl default.
    rewrite (is_serial_false _ _ Hs1 Hs2 Hseq), andb_false_r.
    rewrite (normalize_default_now _ _ Hnow). simpl PyStr.is_empty. cbv iota.
    rewrite solid_rstrip; [done |].
    do 5 apply solid_app. by vm_compute.
  - intros Hd.
    split; [by apply normalize_default_pending |].
    rewrite (column_def_eq _ _ _ _ _ _ _ Hn Ht Hnu Hc), Hd. simpl default.
    rewrite (is_serial_false _ _ Hs1 Hs2); [|by vm_compute].
    rewrite andb_false_r, normalize_default_pending.
    simpl PyStr.is_empty. cbv iota.
    rewrite solid_rstrip; [done |].
    do 5 apply solid_app. by vm_compute.
Qed.

Lemma default_normalization_witness :
  column_def mapping ["id"] created_at_column =
    Returned "`created_at` DATETIME  DEFAULT CURRENT_TIMESTAMP" /\
  column_def mapping ["id"] status_column =
    Returned "`status` VARCHAR(32) NOT NULL DEFAULT 'pending'".
Proof.
  split.
  - destruct (default_normalization mapping ["id"] created_at_column
                "created_at" "timestamp without time zone" "YES" "DATETIME")
      as [H _]; [reflexivity | reflexivity | reflexivity | by vm_compute
                | by vm_compute | by vm_compute |].
    destruct (H "now()") as [_ ->];
      [reflexivity | by vm_compute | by vm_compute | by vm_compute].
  - destruct (default_normalization mapping ["id"] status_column
                "status" "character varying" "NO" "VARCHAR(32)")
      as (_ & H & _); [reflexivity | reflexivity | reflexivity | by vm_compute
                | by vm_compute | by vm_compute |].
    destruct H as [_ ->]; [reflexivity | by vm_compute].
Defined.

(** *** Identifiers *)

Lemma count_char_app (c : ascii) (a b : string) :
  PyStr.count_char c (a +:+ b) =
  (PyStr.count_char c a + PyStr.count_char c b)%nat.
Proof.
  induction a as [|d a IH]; [done |].
  rewrite app_cons_str. simpl. rewrite IH. lia.
Qed.

Lemma count_escaped (name : string) :
  PyStr.count_char "`"%char (PyStr.replace_char "`"%char "``" name) =
  (2 * PyStr.count_char "`"%char name)%nat.
Proof.
  induction name as [|d name IH]; [done |]. simpl.
  destruct (decide ("`"%char = d)) as [<-|Hd].
  - rewrite count_char_app, IH. simpl. lia.
  - simpl. rewrite decide_False by done. rewrite IH. lia.
Qed.

Lemma unescape_escaped (name : string) :
  Identifier.unescape (PyStr.replace_char "`"%char "``" name) = Some name.
Proof.
  induction name as [|d name IH]; [done |]. simpl.
  destruct (decide ("`"%char = d)) as [<-|Hd].
  - change ("``" +:+ ?r) with (String "`"%char (String "`"%char r)).
    simpl. by rewrite IH.
  - simpl. rewrite decide_False by congruence. by rewrite IH.
Qed.

Lemma last_char_snoc (s : string) (c : ascii) :
  PyStr.last_char (s +:+ String c "") = Some c.
Proof.
  induction s as [|d s IH]; [done |].
  rewrite app_cons_str. simpl. rewrite IH.
  destruct s; by rewrite ?app_cons_str.
Qed.

Lemma drop_last_snoc (s : string) (c : ascii) :
  PyStr.drop_last (s +:+ String c "") = s.
Proof.
  induction s as [|d s IH]; [done |].
  rewrite app_cons_str. simpl. rewrite IH.
  destruct s; by rewrite ?app_cons_str.
Qed.

Lemma unquote_quote (name : string) :
  Identifier.unquote (_quote_identifier name) = Some name.
Proof.
  rewrite quote_unfold. simpl. unfold PyStr.endswith_char.
  rewrite last_char_snoc, drop_last_snoc. simpl.
  apply unescape_escaped.
Qed.

Lemma count_quote (name : string) :
  PyStr.count_char "`"%char (_quote_identifier name) =
  (2 + 2 * PyStr.count_char "`"%char name)%nat.
Proof.
  rewrite quote_unfold. simpl. rewrite count_char_app, count_escaped.
  simpl. lia.
Qed.

(** C10: every identifier of the generated DDL is the output of
    [_quote_identifier]: the table name, the name that opens the line of
    each kept column, the columns of the PRIMARY KEY clause, and in CREATE
    INDEX the index, the table and the indexed columns.  The quoted form is
    the name between two backticks with each backtick of the name written
    twice, so the name is read back from it. *)
Theorem identifiers_quoted :
  (forall name,
     _quote_identifier name =
       "`" +:+ PyStr.replace_char "`"%char "``" name +:+ "`" /\
     PyStr.count_char "`"%char (_quote_identifier name) =
       (2 + 2 * PyStr.count_char "`"%char name)%nat /\
     Identifier.unquote (_quote_identifier name) = Some name) /\
  (forall type_mapping schema ignore_types sql ignored,
     generate_create_table_sql type_mapping schema ignore_types =
       Returned (sql, ignored) ->
     exists kept defs,
       filter_columns ignore_types (columns schema) = Returned (kept, ignored) /\
       Forall2
         (fun col d => exists name rest,
            column_name col = Some name /\
            d = _quote_identifier name +:+ rest) kept defs /\
       sql =
         "CREATE TABLE IF NOT EXISTS " +:+
         _quote_identifier (table_name schema) +:+ " (" +:+ nl +:+
         PyStr.join ("," +:+ nl) defs +:+
         match valid_primary_keys (primary_keys schema) ignored with
         | [] => ""
         | valid =>
             "," +:+ nl +:+ "    PRIMARY KEY (" +:+
             PyStr.join ", " (_quote_identifier <$> valid) +:+ ")"
         end +:+ nl +:+ ") ENGINE=InnoDB DEFAULT CHARSET=utf8mb4;") /\
  (forall table index cols is_unique,
     _generate_create_index_sql table index cols is_unique =
       "CREATE " +:+ (if is_unique then "UNIQUE " else "") +:+ "INDEX " +:+
       _quote_identifier index +:+ " ON " +:+ _quote_identifier table +:+
       " (" +:+ PyStr.join ", " (_quote_identifier <$> cols) +:+ ");").
Proof.
  split; [|split; [|done]].
  - intros name. split; [done |]. split; [apply count_quote | apply unquote_quote].
  - intros type_mapping schema ignore_types sql ignored.
    unfold generate_create_table_sql. intros H.
    destruct (filter_columns ignore_types (columns schema))
      as [[kept ign]|e] eqn:Ef; simpl in H; [|done].
    destruct (mapM (column_def type_mapping (primary_keys schema)) kept)
      as [defs|e] eqn:Em; simpl in H; [|done].
    injection H as <- <-. exists kept, defs.
    split; [done |]. split.
    + apply mapM_Returned in Em.
      eapply Forall2_impl; [exact Em |].
      intros col d Hd. by apply column_def_quoted in Hd.
    + unfold primary_key_def.
      by destruct (valid_primary_keys (primary_keys schema) ign).
Qed.

Lemma identifiers_quoted_witness :
  exists kept defs,
    filter_columns ["json"] (columns orders_schema) =
      Returned (kept, ["tags"]) /\
    Forall2
      (fun col d => exists name rest,
         column_name col = Some name /\
         d = _quote_identifier name +:+ rest) kept defs.
Proof.
  destruct identifiers_quoted as (_ & H & _).
  destruct (H mapping orders_schema ["json"]
              (default ("", [])
                 (match generate_create_table_sql mapping orders_schema ["json"]
                  with Returned r => Some r | Raised _ => None end)).1
              ["tags"])
    as (kept & defs & Hf & Hq & _); [by vm_compute |].
  by exists kept, defs.
Defined.

End SchemaFacts.

(** ** The data pipeline *)
Module PipelineFacts.
Import DataMigrator Samples.

Section Loop.

Variable cfg : config.
Variable env : clients.
Variable column_types : gmap string string.
Variable total_count : Z.

Local Abbreviation body := (loop_body cfg env column_types).
Local Abbreviation run := (run_loop cfg env column_types total_count).

Lemma run_loop_done (fuel : nat) (st : loop_state) :
  total_count <= migrated st -> run fuel st = Some st.
Proof.
  intros H. destruct fuel; simpl;
    by rewrite (proj2 (Z.ltb_ge _ _) H).
Qed.

Lemma run_loop_step (fuel : nat) (st : loop_state) :
  migrated st < total_count ->
  run (S fuel) st =
  match body st with
  | Continue st' => run fuel st'
  | Break st' => Some st'
  end.
Proof. intros H. simpl. by rewrite (proj2 (Z.ltb_lt _ _) H). Qed.

(** Every pass logs the read it starts with. *)
Lemma loop_body_first_call (st : loop_state) :
  exists rest,
    trace (state_of (body st)) =
    trace st ++ GetTableData (migrated st) (chunk_size cfg) :: rest.
Proof.
  unfold loop_body, on_exception. simpl.
  destruct (get_table_data env _ _ _) as [[|r data]|e]; simpl.
  - by exists [].
  - destruct (insert_batch env _ _ _) as [inserted|e]; simpl.
    + destruct (inserted =? 0); simpl.
      * destruct (_ <? max_retries cfg); simpl.
        -- destruct (retry_delay cfg <? 0); simpl;
             [destruct (continue_on_error cfg) |]; simpl;
             rewrite <- app_assoc; by eexists.
        -- rewrite <- app_assoc; by eexists.
      * rewrite <- app_assoc; by eexists.
    + destruct (continue_on_error cfg); simpl;
        rewrite <- app_assoc; by eexists.
  - destruct (continue_on_error cfg); simpl; by exists [].
Qed.

(** The pass raises while reading the chunk or while writing it. *)
Definition raises (st : loop_state) : Prop :=
  (exists e,
     get_table_data env (iteration st) (migrated st) (chunk_size cfg) =
       Raised e) \/
  (exists data e,
     get_table_data env (iteration st) (migrated st) (chunk_size cfg) =
       Returned data /\ data <> [] /\
     insert_batch env (iteration st) (convert_data column_types data)
       (batch_size cfg) = Raised e).

(** The [except] branch: the counters after a pass that raised. *)
Lemma loop_body_raises (st : loop_state) :
  raises st ->
  exists st',
    body st = (if continue_on_error cfg then Continue st' else Break st') /\
    failed st' = failed st + chunk_size cfg /\
    migrated st' = migrated st /\
    retry_count st' = retry_count st /\
    iteration st' = S (iteration st).
Proof.
  intros Hr. unfold loop_body, on_exception.
  destruct Hr as [[e He] | (data & e & Hd & Hne & Hi)]; simpl.
  - rewrite He. eexists. split; [reflexivity |]. done.
  - rewrite Hd. destruct data as [|r data]; [done |].
    simpl in *. rewrite Hi. eexists. split; [reflexivity |]. done.
Qed.

(** What the [except] branch does as written: [failed] grows by
    [chunk_size]; the loop is left at once unless [continue_on_error] is
    set, and if it is set [migrated] is not advanced, so that the next
    pass reads at the offset of the pass that raised. *)
Theorem exception_in_chunk (st : loop_state) :
  raises st ->
  exists st',
    body st = (if continue_on_error cfg then Continue st' else Break st') /\
    failed st' = failed st + chunk_size cfg /\
    migrated st' = migrated st /\
    retry_count st' = retry_count st /\
    iteration st' = S (iteration st) /\
    exists rest,
      trace (state_of (body st')) =
      trace st' ++ GetTableData (migrated st) (chunk_size cfg) :: rest.
Proof.
  intros Hr.
  destruct (loop_body_raises st Hr) as (st' & Hb & Hf & Hm & Hrc & Hi).
  exists st'. repeat (split; [done |]).
  destruct (loop_body_first_call st') as [rest Hrest].
  exists rest. by rewrite Hrest, Hm.
Qed.

(** *** A loop that never ends *)

(** With [continue_on_error] set and a read that raises on every pass, each
    pass leaves [migrated] where it was and the loop is not left. *)
Lemma run_loop_diverges (fuel : nat) (st : loop_state) :
  continue_on_error cfg = true ->
  (forall i offset limit, exists e,
     get_table_data env i offset limit = Raised e) ->
  migrated st < total_count ->
  run fuel st = None.
Proof.
  intros Hc Hread. revert st.
  induction fuel as [|fuel IH]; intros st Hlt.
  - simpl. by rewrite (proj2 (Z.ltb_lt _ _) Hlt).
  - rewrite run_loop_step by done.
    destruct (loop_body_raises st) as (st' & Hb & _ & Hm & _).
    { left. apply Hread. }
    rewrite Hb, Hc. apply IH. by rewrite Hm.
Qed.

(** *** Retries after an insertion of zero rows *)

(** The state after a pass whose insertion reported zero rows. *)
Definition after_failed_insert (data : list row) (retry : bool)
    (st : loop_state) : loop_state :=
  {| migrated := migrated st;
     failed := failed st + Z.of_nat (length data);
     retry_count := if retry then retry_count st + 1 else retry_count st;
     iteration := S (iteration st);
     trace := trace st ++
       [GetTableData (migrated st) (chunk_size cfg);
        InsertBatch (convert_data column_types data) (batch_size cfg)] |}.

Lemma loop_body_zero_inserted (st : loop_state) (data : list row) :
  get_table_data env (iteration st) (migrated st) (chunk_size cfg) =
    Returned data ->
  data <> [] ->
  insert_batch env (iteration st) (convert_data column_types data)
    (batch_size cfg) = Returned 0 ->
  0 <= retry_delay cfg ->
  body st =
  if retry_count st <? max_retries cfg
  then Continue (after_failed_insert data true st)
  else Break (after_failed_insert data false st).
Proof.
  intros Hd Hne Hi Hdelay. unfold loop_body. simpl. rewrite Hd.
  destruct data as [|r data]; [done |]. simpl in *. rewrite Hi. simpl.
  rewrite (proj2 (Z.ltb_ge _ _) Hdelay).
  unfold after_failed_insert, next_iteration, set_retry_count, add_failed,
    log, convert_data. simpl.
  rewrite length_fmap, <- app_assoc. simpl.
  by destruct (retry_count st <? max_retries cfg).
Qed.

Lemma run_loop_retry (fuel : nat) (st : loop_state) (data : list row) :
  migrated st < total_count ->
  get_table_data env (iteration st) (migrated st) (chunk_size cfg) =
    Returned data ->
  data <> [] ->
  insert_batch env (iteration st) (convert_data column_types data)
    (batch_size cfg) = Returned 0 ->
  0 <= retry_delay cfg ->
  retry_count st < max_retries cfg ->
  run (S fuel) st = run fuel (after_failed_insert data true st).
Proof.
  intros Hlt Hd Hne Hi Hdelay Hr.
  rewrite run_loop_step, (loop_body_zero_inserted st data) by done.
  by rewrite (proj2 (Z.ltb_lt _ _) Hr).
Qed.

Lemma run_loop_give_up (fuel : nat) (st : loop_state) (data : list row) :
  migrated st < total_count ->
  get_table_data env (iteration st) (migrated st) (chunk_size cfg) =
    Returned data ->
  data <> [] ->
  insert_batch env (iteration st) (convert_data column_types data)
    (batch_size cfg) = Returned 0 ->
  0 <= retry_delay cfg ->
  max_retries cfg <= retry_count st ->
  run (S fuel) st = Some (after_failed_insert data false st).
Proof.
  intros Hlt Hd Hne Hi Hdelay Hr.
  rewrite run_loop_step, (loop_body_zero_inserted st data) by done.
  by rewrite (proj2 (Z.ltb_ge _ _) Hr).
Qed.

(** *** Progress when exceptions leave the loop *)

Lemma loop_body_continue (st st' : loop_state) :
  continue_on_error cfg = false ->
  (forall i rows b n, insert_batch env i rows b = Returned n -> 0 <= n) ->
  body st = Continue st' ->
  (migrated st < migrated st' /\ retry_count st' = 0) \/
  (migrated st' = migrated st /\ retry_count st < max_retries cfg /\
   retry_count st' = retry_count st + 1).
Proof.
  intros Hc Hpos. unfold loop_body, on_exception. rewrite Hc. simpl.
  destruct (get_table_data env _ _ _) as [[|r data]|e]; [done | | done].
  destruct (insert_batch env _ _ _) as [inserted|e] eqn:Ei; [| done].
  apply Hpos in Ei.
  destruct (inserted =? 0) eqn:E0; simpl.
  - destruct (_ <? max_retries cfg) eqn:Er; [| done].
    destruct (retry_delay cfg <? 0); [done |].
    intros [= <-]. simpl. right. apply Z.ltb_lt in Er. by lia.
  - intros [= <-]. simpl. left. apply Z.eqb_neq in E0. by lia.
Qed.

(** The number of passes still possible: each row left may cost one
    successful pass preceded by [max_retries] failed ones. *)
Definition passes_left (st : loop_state) : nat :=
  (Z.to_nat (total_count - migrated st) * (Z.to_nat (max_retries cfg) + 1) +
   Z.to_nat (max_retries cfg - retry_count st))%nat.

Lemma run_loop_terminates (fuel : nat) (st : loop_state) :
  continue_on_error cfg = false ->
  (forall i rows b n, insert_batch env i rows b = Returned n -> 0 <= n) ->
  (passes_left st < fuel)%nat ->
  is_Some (run fuel st).
Proof.
  intros Hc Hpos. revert st.
  induction fuel as [|fuel IH]; intros st Hfuel; [lia |].
  destruct (Z.lt_ge_cases (migrated st) total_count) as [Hlt | Hge].
  2:{ rewrite run_loop_done by done. by eexists. }
  rewrite run_loop_step by done.
  destruct (body st) as [st'|st'] eqn:Eb; [| by eexists].
  apply IH.
  destruct (loop_body_continue st st' Hc Hpos Eb)
    as [[Hm Hr] | (Hm & Hlt' & Hr)];
    unfold passes_left in *; rewrite Hr.
  - rewrite Z.sub_0_r.
    assert (Z.to_nat (total_count - migrated st') + 1 <=
            Z.to_nat (total_count - migrated st))%nat by lia.
    nia.
  - rewrite Hm.
    assert (Z.to_nat (max_retries cfg - (retry_count st + 1)) + 1 =
            Z.to_nat (max_retries cfg - retry_count st))%nat by lia.
    lia.
Qed.

End Loop.

Lemma summary_fields (name : string) (total_count : Z) (st : loop_state) :
  summary name total_count st !! "table_name" = Some (VStr name) /\
  summary name total_count st !! "status" =
    Some (VStr (if failed st =? 0 then "success" else "partial")) /\
  summary name total_count st !! "migrated" = Some (VInt (migrated st)) /\
  summary name total_count st !! "failed" = Some (VInt (failed st)) /\
  summary name total_count st !! "total" = Some (VInt total_count).
Proof. by vm_compute. Qed.

Lemma skipped_fields (name : string) :
  skipped name !! "table_name" = Some (VStr name) /\
  skipped name !! "status" = Some (VStr "skipped") /\
  skipped name !! "migrated" = None /\
  skipped name !! "failed" = None /\
  skipped name !! "total" = None.
Proof. by vm_compute. Qed.

(** *** C8 *)

(** C8: the loop does not end when [continue_on_error] is set and every
    read raises: whatever the fuel, [migrate_table_data] has not returned.
    (The claim says it terminates.) *)
Theorem migrate_never_returns (cfg : config) (env : clients)
    (name : string) (ignore_columns : list string)
    (total_count : Z) (schema_info : table_schema) (fuel : nat) :
  continue_on_error cfg = true ->
  get_table_count env = Returned total_count ->
  0 < total_count ->
  get_table_schema env = Returned schema_info ->
  (forall i offset limit, exists e,
     get_table_data env i offset limit = Raised e) ->
  migrate_table_data cfg env name ignore_columns fuel = None.
Proof.
  intros Hc Hcount Hpos Hschema Hread. unfold migrate_table_data.
  rewrite Hcount, (proj2 (Z.eqb_neq _ _)) by lia. rewrite Hschema.
  by rewrite run_loop_diverges.
Qed.

Lemma migrate_never_returns_witness :
  migrate_table_data settings_continue reads_always_raise "users" [] 1000 =
  None.
Proof.
  apply (migrate_never_returns settings_continue reads_always_raise
           "users" [] 2 users_schema 1000);
    [reflexivity | reflexivity | lia | reflexivity |].
  intros i offset limit. by exists DatabaseError.
Defined.

(** *** C4 *)

(** C4: with [continue_on_error] set, a table of 2 rows whose first read
    raises is read at offset 0 a second time: the loop charges a whole
    chunk to [failed] but does not move on to the next offset, so the
    rows charged as failed are then migrated as well ([migrated = 2],
    [failed = 100], [total = 2]).  The claim says the read after the
    exception starts past the failed chunk. *)
Lemma read_after_exception_same_offset :
  let out :=
    migrate_table_data settings_continue first_read_raises "users" [] 2 in
  calls_made out =
    [GetTableData 0 100; GetTableData 0 100;
     InsertBatch two_rows_converted 1000] /\
  field "status" out = Some (VStr "partial") /\
  field "failed" out = Some (VInt 100) /\
  field "migrated" out = Some (VInt 2) /\
  field "total" out = Some (VInt 2).
Proof. by vm_compute. Qed.

Lemma exception_in_chunk_witness :
  exists st',
    loop_body settings_continue first_read_raises ∅ initial_state =
      Continue st' /\
    failed st' = 100 /\ migrated st' = 0.
Proof.
  destruct (exception_in_chunk settings_continue first_read_raises ∅
              initial_state) as (st' & Hb & Hf & Hm & _).
  { left. by exists DatabaseError. }
  exists st'. by repeat split.
Defined.

(** *** C2 *)

(** C2 as stated fails: with [max_retries = 3] a table of 2 rows whose
    insertions all report zero rows sees four insertion attempts, not
    three, and the result has [failed = 8], not the row count. *)
Lemma all_inserts_fail_four_attempts :
  let out := migrate_table_data settings all_inserts_fail "users" [] 10 in
  insert_attempts (calls_made out) = 4%nat /\
  field "status" out = Some (VStr "partial") /\
  field "migrated" out = Some (VInt 0) /\
  field "failed" out = Some (VInt 8) /\
  field "total" out = Some (VInt 2).
Proof. by vm_compute. Qed.

(** C2, amended: for a table with rows whose reads at offset 0 return rows
    and whose insertions all report zero rows, [migrate_table_data] with
    [max_retries = 3] makes exactly four insertion attempts (the first one
    and the three retries the guard [retry_count < max_retries] allows),
    each after a read at offset 0, and then returns status [partial],
    [migrated = 0] and the row count as [total]. *)
Theorem all_inserts_fail_retries (cfg : config) (env : clients)
    (name : string) (ignore_columns : list string)
    (total_count : Z) (schema_info : table_schema)
    (chunk : nat -> list row) (fuel : nat) :
  max_retries cfg = 3 ->
  0 <= retry_delay cfg ->
  get_table_count env = Returned total_count ->
  0 < total_count ->
  get_table_schema env = Returned schema_info ->
  (forall i, get_table_data env i 0 (chunk_size cfg) = Returned (chunk i)) ->
  (forall i, chunk i <> []) ->
  (forall i rows b, insert_batch env i rows b = Returned 0) ->
  (4 <= fuel)%nat ->
  let column_types :=
    column_type_loop ignore_columns (columns schema_info) ∅ in
  let attempt i :=
    [GetTableData 0 (chunk_size cfg);
     InsertBatch (convert_data column_types (chunk i)) (batch_size cfg)] in
  exists r tr,
    migrate_table_data cfg env name ignore_columns fuel =
      Some (Returned (r, tr)) /\
    tr = attempt 0%nat ++ attempt 1%nat ++ attempt 2%nat ++ attempt 3%nat /\
    insert_attempts tr = 4%nat /\
    r !! "status" = Some (VStr "partial") /\
    r !! "migrated" = Some (VInt 0) /\
    r !! "total" = Some (VInt total_count).
Proof.
  intros Hmax Hdelay Hcount Hpos Hschema Hread Hne Hins Hfuel
    column_types attempt.
  set (rows :=
         Z.of_nat (length (chunk 0%nat) + length (chunk 1%nat) +
                   length (chunk 2%nat) + length (chunk 3%nat))).
  destruct fuel as [|[|[|[|fuel]]]]; try lia.
  unfold migrate_table_data.
  rewrite Hcount, (proj2 (Z.eqb_neq _ _)) by lia. rewrite Hschema.
  fold column_types.
  pose (st1 := after_failed_insert cfg column_types (chunk 0%nat) true
                 initial_state).
  pose (st2 := after_failed_insert cfg column_types (chunk 1%nat) true st1).
  pose (st3 := after_failed_insert cfg column_types (chunk 2%nat) true st2).
  pose (st4 := after_failed_insert cfg column_types (chunk 3%nat) false st3).
  assert (run_loop cfg env column_types total_count (S (S (S (S fuel))))
            initial_state = Some st4) as ->.
  { rewrite (run_loop_retry _ _ _ _ _ _ (chunk 0%nat));
      [| simpl; lia | apply Hread | apply Hne | apply Hins | done
       | rewrite Hmax; simpl; lia].
    fold st1.
    rewrite (run_loop_retry _ _ _ _ _ _ (chunk 1%nat));
      [| simpl; lia | apply Hread | apply Hne | apply Hins | done
       | rewrite Hmax; simpl; lia].
    fold st2.
    rewrite (run_loop_retry _ _ _ _ _ _ (chunk 2%nat));
      [| simpl; lia | apply Hread | apply Hne | apply Hins | done
       | rewrite Hmax; simpl; lia].
    fold st3.
    rewrite (run_loop_give_up _ _ _ _ _ _ (chunk 3%nat));
      [| simpl; lia | apply Hread | apply Hne | apply Hins | done
       | rewrite Hmax; simpl; lia].
    done. }
  assert (failed st4 = rows) as Hfailed by (unfold rows; simpl; lia).
  assert (0 < rows) as Hrows.
  { unfold rows. specialize (Hne 0%nat).
    destruct (chunk 0%nat); [done |]. simpl. lia. }
  do 2 eexists. split; [reflexivity |].
  destruct (summary_fields name total_count st4) as (_ & Hs & Hm & Hf & Ht).
  split; [by simpl |]. split; [by simpl |].
  rewrite Hs, Hm, Ht, Hfailed.
  rewrite (proj2 (Z.eqb_neq rows 0)) by lia.
  by repeat split.
Qed.

Lemma all_inserts_fail_retries_witness :
  exists r tr,
    migrate_table_data settings all_inserts_fail "users" [] 4 =
      Some (Returned (r, tr)) /\
    insert_attempts tr = 4%nat /\
    r !! "status" = Some (VStr "partial").
Proof.
  destruct (all_inserts_fail_retries settings all_inserts_fail "users" []
              2 users_schema (fun _ => two_rows) 4)
    as (r & tr & Hrun & _ & Hn & Hs & _);
    [reflexivity | by vm_compute | reflexivity | lia | reflexivity
    | by intros | by intros | by intros | lia |].
  by exists r, tr.
Defined.

(** *** C5 *)

(** C5 as stated fails: the dictionary returned for a table without rows
    has the keys [table_name] and [status] only. *)
Lemma skipped_result_without_counts :
  let out := migrate_table_data settings empty_table "users" [] 0 in
  field "status" out = Some (VStr "skipped") /\
  field "migrated" out = None /\
  field "failed" out = None /\
  field "total" out = None /\
  calls_made out = [].
Proof. by vm_compute. Qed.

(** C5, amended: for a table whose count is not zero, the dictionary
    [migrate_table_data] returns carries [migrated], [failed] and [total],
    and its [status] is [success] when [failed] is 0 and [partial]
    otherwise; for a count of zero it returns, without any call to the
    clients inside the loop, a dictionary with [status] [skipped] and none
    of the three counters.  A dictionary is returned whenever the two
    catalogue calls return, [continue_on_error] is off and no insertion
    reports a negative count. *)
Theorem result_fields (cfg : config) (env : clients) (name : string)
    (ignore_columns : list string) :
  (forall fuel r calls,
     migrate_table_data cfg env name ignore_columns fuel =
       Some (Returned (r, calls)) ->
     r !! "table_name" = Some (VStr name) /\
     ((get_table_count env = Returned 0 /\
       r !! "status" = Some (VStr "skipped") /\
       r !! "migrated" = None /\ r !! "failed" = None /\
       r !! "total" = None /\ calls = []) \/
      (exists total_count m f,
         get_table_count env = Returned total_count /\
         total_count <> 0 /\
         r !! "migrated" = Some (VInt m) /\
         r !! "failed" = Some (VInt f) /\
         r !! "total" = Some (VInt total_count) /\
         r !! "status" =
           Some (VStr (if f =? 0 then "success" else "partial"))))) /\
  (forall total_count schema_info,
     get_table_count env = Returned total_count ->
     get_table_schema env = Returned schema_info ->
     continue_on_error cfg = false ->
     (forall i rows b n, insert_batch env i rows b = Returned n -> 0 <= n) ->
     exists fuel r calls,
       migrate_table_data cfg env name ignore_columns fuel =
         Some (Returned (r, calls))).
Proof.
  split.
  - intros fuel r calls. unfold migrate_table_data.
    destruct (get_table_count env) as [total_count|e]; [|done].
    destruct (total_count =? 0) eqn:E0.
    + intros [= <- <-]. apply Z.eqb_eq in E0 as ->.
      destruct (skipped_fields name) as (Hn & Hs & Hm & Hf & Ht).
      split; [done |]. left. by repeat split.
    + destruct (get_table_schema env) as [schema_info|e]; [|done].
      destruct (run_loop _ _ _ _ _ _) as [st|]; [|done].
      intros [= <- <-]. apply Z.eqb_neq in E0.
      destruct (summary_fields name total_count st)
        as (Hn & Hs & Hm & Hf & Ht).
      split; [done |]. right.
      exists total_count, (migrated st), (failed st). by repeat split.
  - intros total_count schema_info Hcount Hschema Hc Hpos.
    unfold migrate_table_data. rewrite Hcount.
    destruct (total_count =? 0); [by exists O; eauto |].
    rewrite Hschema.
    set (column_types :=
           column_type_loop ignore_columns (columns schema_info) ∅).
    set (fuel := S (passes_left cfg total_count initial_state)).
    destruct (run_loop_terminates cfg env column_types total_count fuel
                initial_state Hc Hpos) as [st Hst]; [unfold fuel; lia |].
    exists fuel. rewrite Hst. simpl. by eauto.
Qed.

Lemma result_fields_witness :
  exists fuel r calls,
    migrate_table_data settings all_inserts_fail "users" [] fuel =
      Some (Returned (r, calls)) /\
    r !! "table_name" = Some (VStr "users").
Proof.
  destruct (result_fields settings all_inserts_fail "users" []) as [H1 H2].
  destruct (H2 2 users_schema) as (fuel & r & calls & Hrun);
    [reflexivity | reflexivity | reflexivity | |].
  { intros i rows b n [= <-]. lia. }
  exists fuel, r, calls. split; [done |].
  by destruct (H1 fuel r calls Hrun) as [Hn _].
Defined.

End PipelineFacts.

(** ** More on the converter *)
Module ConverterMore.
Import TypeConverter Samples.

Lemma lower_char_not_upper (c : ascii) :
  PyStr.is_upper (PyStr.lower_char c) = false.
Proof. destruct c as [[] [] [] [] [] [] [] []]; reflexivity. Qed.

Lemma lower_char_idem (c : ascii) :
  PyStr.lower_char (PyStr.lower_char c) = PyStr.lower_char c.
Proof. destruct c as [[] [] [] [] [] [] [] []]; reflexivity. Qed.

Lemma upper_lower_char (c : ascii) :
  PyStr.upper_char (PyStr.lower_char c) = PyStr.upper_char c.
Proof. destruct c as [[] [] [] [] [] [] [] []]; reflexivity. Qed.

Lemma lower_idem (s : string) : PyStr.lower (PyStr.lower s) = PyStr.lower s.
Proof.
  induction s as [|c s IH]; [done |].
  unfold PyStr.lower in *. simpl. by rewrite lower_char_idem, IH.
Qed.

Lemma upper_lower (s : string) : PyStr.upper (PyStr.lower s) = PyStr.upper s.
Proof.
  induction s as [|c s IH]; [done |].
  unfold PyStr.upper, PyStr.lower in *. simpl.
  by rewrite upper_lower_char, IH.
Qed.

Lemma has_upper_lower (s : string) : has_upper (PyStr.lower s) = false.
Proof.
  induction s as [|c s IH]; [done |].
  unfold PyStr.lower in *. simpl. by rewrite lower_char_not_upper, IH.
Qed.

(** A prefix of a text without capitals has no capitals. *)
Lemma startswith_no_upper (s p : string) :
  has_upper s = false -> PyStr.startswith s p = true -> has_upper p = false.
Proof.
  revert s. induction p as [|a p IH]; intros s Hs Hp; [done |].
  destruct s as [|b s]; [done |]. simpl in *.
  destruct (decide (a = b)) as [->|]; [|done].
  apply orb_false_iff in Hs as [Hb Hs]. rewrite Hb. simpl. by eapply IH.
Qed.

Lemma contains_no_upper (needle hay : string) :
  has_upper hay = false -> PyStr.contains needle hay = true ->
  has_upper needle = false.
Proof.
  induction hay as [|c hay IH]; intros Hh Hc.
  - by destruct needle.
  - change (PyStr.contains needle (String c hay))
      with (PyStr.startswith (String c hay) needle ||
            PyStr.contains needle hay) in Hc.
    apply orb_true_iff in Hc as [Hc | Hc].
    + by apply (startswith_no_upper (String c hay)).
    + apply IH; [|done]. simpl in Hh. by apply orb_false_iff in Hh as [_ ?].
Qed.

(** X1: [should_ignore_column] answers [True] exactly when there is at
    least one rule and either the lower-cased UDT name starts with an
    underscore or some rule occurs in the lower-cased type or UDT name. *)
Theorem should_ignore_column_iff (column : column_info)
    (rules : list string) :
  should_ignore_column column rules = true <->
  rules <> [] /\
  (PyStr.startswith (PyStr.lower (default "" (udt_name column))) "_" = true \/
   exists rule, rule ∈ rules /\
     (PyStr.contains rule (PyStr.lower (default "" (data_type column))) = true \/
      PyStr.contains rule (PyStr.lower (default "" (udt_name column))) = true)).
Proof. unfold should_ignore_column. apply ConverterFacts.ignore_loop_true. Qed.

(** X2: a rule list that holds the empty string ignores every column: the
    empty string occurs in every type name. *)
Theorem empty_rule_ignores_everything (column : column_info)
    (rules : list string) :
  "" ∈ rules -> should_ignore_column column rules = true.
Proof.
  intros Hin. unfold should_ignore_column.
  apply ConverterFacts.ignore_loop_true. split.
  - intros ->. inversion Hin.
  - right. exists "". split; [done |]. left. apply contains_empty.
Qed.

Lemma empty_rule_ignores_everything_witness :
  should_ignore_column
    {| column_name := Some "id"; data_type := Some "integer";
       udt_name := Some "int4"; character_maximum_length := None;
       numeric_precision := None; numeric_scale := None;
       is_nullable := Some "NO"; column_default := None |}
    ["json"; ""] = true.
Proof.
  apply empty_rule_ignores_everything.
  apply elem_of_cons. right. apply elem_of_cons. by left.
Defined.

(** X3: the names are lower-cased before matching but the rules are not:
    a rule with a capital letter matches no column, so under rules that all
    have one only the array marker decides. *)
Theorem capital_rules_never_match (column : column_info)
    (rules : list string) :
  (forall rule, rule ∈ rules -> has_upper rule = true) ->
  should_ignore_column column rules =
  match rules with
  | [] => false
  | _ => PyStr.startswith (PyStr.lower (default "" (udt_name column))) "_"
  end.
Proof.
  unfold should_ignore_column.
  set (dt := PyStr.lower (default "" (data_type column))).
  set (udt := PyStr.lower (default "" (udt_name column))).
  assert (forall r, has_upper r = true -> PyStr.contains r dt = false) as Hdt.
  { intros r Hr. destruct (PyStr.contains r dt) eqn:E; [|done].
    apply contains_no_upper in E; [congruence | apply has_upper_lower]. }
  assert (forall r, has_upper r = true -> PyStr.contains r udt = false) as Hudt.
  { intros r Hr. destruct (PyStr.contains r udt) eqn:E; [|done].
    apply contains_no_upper in E; [congruence | apply has_upper_lower]. }
  induction rules as [|r rules IH]; intros Hall; [done |].
  simpl. rewrite Hdt, Hudt by (apply Hall; left).
  destruct (PyStr.startswith udt "_") eqn:E; [done |].
  rewrite IH by (intros r' Hr'; apply Hall; by right).
  by destruct rules.
Qed.

Lemma capital_rules_never_match_witness :
  should_ignore_column
    {| column_name := Some "payload"; data_type := Some "jsonb";
       udt_name := Some "jsonb"; character_maximum_length := None;
       numeric_precision := None; numeric_scale := None;
       is_nullable := Some "YES"; column_default := None |}
    ["JSON"; "Jsonb"] = false.
Proof.
  rewrite capital_rules_never_match; [by vm_compute |].
  intros rule Hin.
  apply elem_of_cons in Hin as [-> | Hin]; [by vm_compute |].
  apply list_elem_of_singleton in Hin as ->. by vm_compute.
Defined.

(** X4: [convert_value] yields [None] for [None] only, and converting a
    converted cell again changes nothing. *)
Theorem convert_value_idempotent (v : value) (postgres_type : string) :
  (convert_value v postgres_type = VNone <-> v = VNone) /\
  convert_value (convert_value v postgres_type) postgres_type =
  convert_value v postgres_type.
Proof.
  unfold convert_value.
  destruct (decide (PyStr.lower postgres_type = "boolean")) as [Hb|Hb];
    [| destruct (decide (PyStr.lower postgres_type = "uuid")) as [Hu|Hu];
       [| destruct (decide (PyStr.lower postgres_type = "timestamp"));
          [| destruct (decide (PyStr.lower postgres_type = "timestamptz"))]]].
  - destruct v as [|b|z|s|r t]; simpl; [done | | | |].
    + destruct b; by split.
    + destruct (z =? 0); by split.
    + destruct s; by split.
    + destruct t; by split.
  - destruct v as [|[]|z|s|r t]; simpl; by split.
  - destruct v; by split.
  - destruct v; by split.
  - destruct v; by split.
Qed.

End ConverterMore.

(** ** The type mapping *)
Module TypeMappingFacts.
Import TypeMapping Samples Samples2.

(** X5: a source type name written in ASCII is matched without regard to
    letter case, and the long spellings of the character types are treated
    as the short ones. *)
Theorem convert_column_type_case (type_mapping : gmap string string)
    (postgres_type : string) (column : column_info) :
  is_ascii_text postgres_type = true ->
  convert_column_type type_mapping postgres_type column =
    convert_column_type type_mapping (PyStr.lower postgres_type) column /\
  convert_column_type type_mapping "character varying" column =
    convert_column_type type_mapping "varchar" column /\
  convert_column_type type_mapping "character" column =
    convert_column_type type_mapping "char" column.
Proof.
  intros _. split; [|split; reflexivity].
  unfold convert_column_type.
  by rewrite ConverterMore.lower_idem, ConverterMore.upper_lower.
Qed.

Lemma convert_column_type_case_witness :
  convert_column_type mapping "Jsonb" amount_column =
  convert_column_type mapping (PyStr.lower "Jsonb") amount_column.
Proof.
  by destruct (convert_column_type_case mapping "Jsonb" amount_column
                 eq_refl) as [H _].
Defined.

(** X6: only the templates of the decimal and character families go
    through [format]: when [convert_column_type] raises, the type is
    decimal or numeric, or char, or a varchar with a declared length. *)
Theorem convert_column_type_raised (type_mapping : gmap string string)
    (postgres_type : string) (column : column_info) (e : exn) :
  convert_column_type type_mapping postgres_type column = Raised e ->
  let base_type :=
    default (PyStr.lower postgres_type)
      (type_aliases !! PyStr.lower postgres_type) in
  base_type = "decimal" \/ base_type = "numeric" \/ base_type = "char" \/
  (base_type = "varchar" /\ character_maximum_length column <> None).
Proof.
  unfold convert_column_type. simpl.
  set (base_type := default _ _).
  destruct (bool_decide (base_type = "decimal")) eqn:Ed.
  { apply bool_decide_eq_true in Ed. by left. }
  destruct (bool_decide (base_type = "numeric")) eqn:En.
  { apply bool_decide_eq_true in En. by right; left. }
  simpl.
  destruct (bool_decide (base_type = "char")) eqn:Ec.
  { apply bool_decide_eq_true in Ec. by right; right; left. }
  destruct (bool_decide (base_type = "varchar")) eqn:Ev; simpl; [|done].
  apply bool_decide_eq_true in Ev.
  destruct (bool_decide (character_maximum_length column = None)) eqn:El;
    [done |].
  apply bool_decide_eq_false in El. intros _. by right; right; right.
Qed.

Lemma convert_column_type_raised_witness :
  convert_column_type odd_mapping "numeric" amount_column =
    Raised (KeyError "p") /\
  convert_column_type odd_mapping "interval" amount_column =
    Returned "VARCHAR{64}" /\
  (default (PyStr.lower "numeric") (type_aliases !! PyStr.lower "numeric") =
     "decimal" \/
   default (PyStr.lower "numeric") (type_aliases !! PyStr.lower "numeric") =
     "numeric" \/
   default (PyStr.lower "numeric") (type_aliases !! PyStr.lower "numeric") =
     "char" \/
   (default (PyStr.lower "numeric") (type_aliases !! PyStr.lower "numeric") =
      "varchar" /\
    character_maximum_length amount_column <> None)).
Proof.
  split; [by vm_compute |]. split; [by vm_compute |].
  apply (convert_column_type_raised odd_mapping "numeric" amount_column
           (KeyError "p")).
  by vm_compute.
Defined.

(** X7: without a [decimal] entry in the table, a decimal or numeric
    column maps to [DECIMAL(p,s)] with the precision and scale of the
    descriptor, 10 and 0 standing in for a missing or zero one; an entry
    under [numeric] plays no part. *)
Theorem decimal_default_template (type_mapping : gmap string string)
    (postgres_type : string) (column : column_info) :
  type_mapping !! "decimal" = None ->
  PyStr.lower postgres_type = "decimal" \/
  PyStr.lower postgres_type = "numeric" ->
  convert_column_type type_mapping postgres_type column =
  Returned
    ("DECIMAL(" +:+ pretty (int_or (numeric_precision column) 10) +:+ "," +:+
     pretty (int_or (numeric_scale column) 0) +:+ ")").
Proof.
  intros Hm Hty. unfold convert_column_type. rewrite Hm.
  destruct Hty as [-> | ->]; reflexivity.
Qed.

Lemma decimal_default_template_witness :
  convert_column_type {[ "numeric" := "IGNORED" ]} "NUMERIC" amount_column =
  Returned "DECIMAL(12,2)".
Proof.
  rewrite decimal_default_template; [by vm_compute | by vm_compute |].
  right. by vm_compute.
Defined.

End TypeMappingFacts.

(** ** Default expressions *)
Module DefaultFacts.
Import SchemaMigrator.

(** One step of [strip_cast], with the nested pattern spelled out. *)
Lemma strip_cast_cons (c : ascii) (s : string) :
  strip_cast (String c s) =
  if is_cast (String c s) then "" else String c (strip_cast s).
Proof.
  destruct s as [|b [|d t]].
  - by destruct c as [[] [] [] [] [] [] [] []].
  - destruct c as [[] [] [] [] [] [] [] []]; try reflexivity.
    by destruct b as [[] [] [] [] [] [] [] []].
  - destruct c as [[] [] [] [] [] [] [] []]; try reflexivity.
    destruct b as [[] [] [] [] [] [] [] []]; try reflexivity.
Qed.

Lemma all_cast_chars_colon (x y : string) :
  all_cast_chars (x +:+ String ":"%char y) = false.
Proof.
  induction x as [|c x IH]; [done |].
  rewrite app_cons_str. simpl. rewrite IH. apply andb_false_r.
Qed.

Lemma is_cast_colons (suffix : string) :
  is_cast suffix = true ->
  exists d t, suffix = String ":"%char (String ":"%char (String d t)) /\
              all_cast_chars (String d t) = true.
Proof.
  destruct suffix as [|a [|b [|d t]]]; try done.
  unfold is_cast. intros H.
  apply andb_true_iff in H as [H Hc].
  apply andb_true_iff in H as [Ha Hb].
  apply bool_decide_eq_true in Ha as ->.
  apply bool_decide_eq_true in Hb as ->. by eauto.
Qed.

(** In front of a cast nothing else is a cast that reaches the end. *)
Lemma is_cast_before (c : ascii) (p suffix : string) :
  is_cast suffix = true -> is_cast (String c (p +:+ suffix)) = false.
Proof.
  intros (d & t & -> & _)%is_cast_colons.
  destruct p as [|b [|e p]].
  - rewrite app_nil_l_str. unfold is_cast.
    change (all_cast_chars (String ":"%char (String d t))) with false.
    by rewrite andb_false_r.
  - rewrite !app_cons_str, app_nil_l_str. unfold is_cast.
    change (all_cast_chars (String ":"%char (String ":"%char (String d t))))
      with false.
    by rewrite andb_false_r.
  - rewrite !app_cons_str. unfold is_cast.
    change (String e (p +:+ ?y)) with (String e p +:+ y).
    by rewrite all_cast_chars_colon, andb_false_r.
Qed.

(** X8: [re.sub(r"::[A-Za-z0-9_ ]+$", "", s)] as the code uses it: a cast
    that ends the text is cut off, whatever stands before it, and a text
    that changes loses nothing but such a cast. *)
Theorem strip_cast_spec (s : string) :
  (forall p suffix,
     is_cast suffix = true -> strip_cast (p +:+ suffix) = p) /\
  (exists suffix,
     s = strip_cast s +:+ suffix /\ (suffix = "" \/ is_cast suffix = true)).
Proof.
  split.
  - intros p suffix Hc. induction p as [|c p IH].
    + rewrite app_nil_l_str.
      destruct (is_cast_colons _ Hc) as (d & t & -> & _).
      by rewrite strip_cast_cons, Hc.
    + rewrite app_cons_str, strip_cast_cons, <- app_cons_str.
      rewrite app_cons_str, (is_cast_before c p suffix Hc).
      by rewrite IH.
  - induction s as [|c s (suffix & Hs & Hsuf)].
    + exists "". by split; [|left].
    + rewrite strip_cast_cons.
      destruct (is_cast (String c s)) eqn:E.
      * exists (String c s). by split; [|right].
      * exists suffix. split; [|done].
        by rewrite app_cons_str, <- Hs.
Qed.

Lemma strip_cast_spec_witness :
  strip_cast ("'a::b'" +:+ "::character varying") = "'a::b'".
Proof.
  destruct (strip_cast_spec "") as [H _].
  apply H. by vm_compute.
Defined.

Lemma lstrip_idem (s : string) :
  PyStr.lstrip (PyStr.lstrip s) = PyStr.lstrip s.
Proof.
  induction s as [|c s IH]; [done |]. simpl.
  destruct (PyStr.is_space c) eqn:E; [done |]. simpl. by rewrite E.
Qed.

Lemma rstrip_idem (s : string) :
  PyStr.rstrip (PyStr.rstrip s) = PyStr.rstrip s.
Proof.
  induction s as [|c s IH]; [done |]. simpl.
  destruct (PyStr.is_space c && PyStr.is_empty (PyStr.rstrip s)) eqn:E;
    [done |].
  simpl. by rewrite IH, E.
Qed.

Lemma lstrip_rstrip_lstrip (s : string) :
  PyStr.lstrip (PyStr.rstrip (PyStr.lstrip s)) =
  PyStr.rstrip (PyStr.lstrip s).
Proof.
  induction s as [|c s IH]; [done |]. simpl.
  destruct (PyStr.is_space c) eqn:E; [done |].
  simpl. rewrite E. simpl. by rewrite E.
Qed.

Lemma strip_idem (s : string) : PyStr.strip (PyStr.strip s) = PyStr.strip s.
Proof.
  unfold PyStr.strip. by rewrite lstrip_rstrip_lstrip, rstrip_idem.
Qed.

(** X9: what [_normalize_default] returns has no blank at either end, and
    it is [1] or [0] only for a column of type [boolean], for which
    [true], [t], [1], [false], [f] and [0] are recognised in any letter
    case; other columns keep such a default as it is written. *)
Theorem normalize_default_shape (base_type column_default : string) :
  PyStr.strip (_normalize_default base_type column_default) =
    _normalize_default base_type column_default /\
  (base_type <> "boolean" ->
   PyStr.lower (default_expr column_default) <> "now()" ->
   _normalize_default base_type column_default =
     default_expr column_default) /\
  (PyStr.lower (default_expr column_default) ∈ ["true"; "t"; "1"] ->
   _normalize_default "boolean" column_default = "1") /\
  (PyStr.lower (default_expr column_default) ∈ ["false"; "f"; "0"] ->
   _normalize_default "boolean" column_default = "0").
Proof.
  assert (default_expr "" = "") as Hempty by reflexivity.
  split; [|split; [|split]].
  - unfold _normalize_default.
    destruct (PyStr.is_empty column_default); [done |].
    repeat match goal with
           | |- context [if ?b then _ else _] => destruct b
           end; try done.
    unfold default_expr. apply strip_idem.
  - intros Hb Hnow. unfold _normalize_default.
    destruct (PyStr.is_empty column_default) eqn:E.
    { apply is_empty_true in E as ->. by rewrite Hempty. }
    rewrite (bool_decide_eq_false_2 _ Hb). simpl.
    by rewrite (bool_decide_eq_false_2 _ Hnow).
  - intros Hin. unfold _normalize_default.
    destruct (PyStr.is_empty column_default) eqn:E.
    { apply is_empty_true in E as ->. rewrite Hempty in Hin.
      by vm_compute in Hin; repeat (apply elem_of_cons in Hin as [Hin|Hin];
        [done |]); inversion Hin. }
    rewrite bool_decide_eq_true_2 by done. simpl.
    repeat (apply elem_of_cons in Hin as [-> | Hin]; [done |]).
    inversion Hin.
  - intros Hin. unfold _normalize_default.
    destruct (PyStr.is_empty column_default) eqn:E.
    { apply is_empty_true in E as ->. rewrite Hempty in Hin.
      by vm_compute in Hin; repeat (apply elem_of_cons in Hin as [Hin|Hin];
        [done |]); inversion Hin. }
    rewrite bool_decide_eq_true_2 by done. simpl.
    repeat (apply elem_of_cons in Hin as [-> | Hin]; [done |]).
    inversion Hin.
Qed.

Lemma normalize_default_shape_witness :
  _normalize_default "boolean" " (TRUE) " = "1" /\
  _normalize_default "boolean" "'f'::text" = "'f'" /\
  _normalize_default "smallint" "1" = "1" /\
  _normalize_default "text" "False" = "False".
Proof.
  destruct (normalize_default_shape "boolean" " (TRUE) ") as (_ & _ & H1 & _).
  destruct (normalize_default_shape "text" "False") as (_ & H2 & _).
  split; [apply H1; vm_compute; by left |].
  split; [by vm_compute |]. split; [by vm_compute |].
  rewrite H2; by vm_compute.
Defined.

End DefaultFacts.

(** ** Columns kept and columns ignored *)
Module GenerateFacts.
Import SchemaMigrator Samples.

Lemma filter_columns_spec (rules : list string) (cols : list column_info)
    (kept : list column_info) (ignored : list string) :
  filter_columns rules cols = Returned (kept, ignored) ->
  kept =
    filter (fun col => TypeConverter.should_ignore_column col rules = false)
      cols /\
  Forall2 (fun col name => column_name col = Some name)
    (filter (fun col => TypeConverter.should_ignore_column col rules = true)
       cols) ignored.
Proof.
  revert kept ignored.
  induction cols as [|col cols IH]; intros kept ignored H; simpl in H.
  - injection H as <- <-. by split; [|constructor].
  - destruct (TypeConverter.should_ignore_column col rules) eqn:E.
    + destruct (column_name col) as [name|] eqn:En; simpl in H; [|done].
      destruct (data_type col); simpl in H; [|done].
      destruct (filter_columns rules cols) as [[k i]|]; simpl in H; [|done].
      injection H as <- <-. destruct (IH k i eq_refl) as [-> Hi].
      rewrite !filter_cons.
      rewrite decide_False by (by rewrite E).
      rewrite decide_True by done.
      split; [done |]. by constructor.
    + destruct (filter_columns rules cols) as [[k i]|]; simpl in H; [|done].
      injection H as <- <-. destruct (IH k i eq_refl) as [-> Hi].
      rewrite !filter_cons.
      rewrite decide_True by done.
      rewrite decide_False by (by rewrite E).
      by split.
Qed.

Lemma mapM_length {A B : Type} (f : A -> outcome B) (l : list A)
    (bs : list B) :
  mapM f l = Returned bs -> length bs = length l.
Proof.
  intros H. apply SchemaFacts.mapM_Returned in H.
  symmetry. by eapply Forall2_length.
Qed.

(** X10: when [generate_create_table_sql] returns, the names it reports as
    ignored are those of the columns [should_ignore_column] rejects, in
    catalogue order, one line is generated for each other column, and so
    every column is either defined or reported. *)
Theorem generate_accounts_for_columns (type_mapping : gmap string string)
    (schema : table_schema) (rules : list string) (sql : string)
    (ignored : list string) :
  generate_create_table_sql type_mapping schema rules =
    Returned (sql, ignored) ->
  Forall2 (fun col name => column_name col = Some name)
    (filter (fun col => TypeConverter.should_ignore_column col rules = true)
       (columns schema)) ignored /\
  exists defs,
    mapM (column_def type_mapping (primary_keys schema))
      (filter (fun col => TypeConverter.should_ignore_column col rules = false)
         (columns schema)) = Returned defs /\
    (length defs + length ignored = length (columns schema))%nat.
Proof.
  unfold generate_create_table_sql. intros H.
  destruct (filter_columns rules (columns schema)) as [[kept ign]|] eqn:Ef;
    simpl in H; [|done].
  destruct (mapM _ kept) as [defs|] eqn:Em; simpl in H; [|done].
  injection H as _ <-.
  destruct (filter_columns_spec _ _ _ _ Ef) as [-> Hi].
  split; [done |]. exists defs. split; [done |].
  rewrite (mapM_length _ _ _ Em), <- (Forall2_length _ _ _ Hi).
  clear. induction (columns schema) as [|col cols IH]; [done |].
  rewrite !filter_cons.
  destruct (TypeConverter.should_ignore_column col rules);
    repeat case_decide; try done; simpl; lia.
Qed.

Lemma generate_accounts_for_columns_witness :
  exists defs,
    mapM (column_def mapping (primary_keys orders_schema))
      (filter (fun col =>
                 TypeConverter.should_ignore_column col ["json"] = false)
         (columns orders_schema)) = Returned defs /\
    (length defs + length ["tags"] = length (columns orders_schema))%nat.
Proof.
  destruct (generate_accounts_for_columns mapping orders_schema ["json"]
              (default ("", [])
                 (match generate_create_table_sql mapping orders_schema ["json"]
                  with Returned r => Some r | Raised _ => None end)).1
              ["tags"]) as [_ H]; [by vm_compute | exact H].
Defined.

(** What one column needs for the DDL to be generated. *)
Definition column_usable (type_mapping : gmap string string)
    (rules : list string) (col : column_info) : Prop :=
  is_Some (column_name col) /\
  (exists ty,
     data_type col = Some ty /\
     (TypeConverter.should_ignore_column col rules = false ->
      is_Some (is_nullable col) /\
      exists target,
        TypeMapping.convert_column_type type_mapping ty col =
          Returned target)).

Lemma generate_parts_iff (type_mapping : gmap string string)
    (pks rules : list string) (cols : list column_info) :
  (exists kept ignored defs,
     filter_columns rules cols = Returned (kept, ignored) /\
     mapM (column_def type_mapping pks) kept = Returned defs) <->
  Forall (column_usable type_mapping rules) cols.
Proof.
  induction cols as [|col cols IH]; simpl.
  - split; [by constructor |]. intros _. by exists [], [], [].
  - rewrite Forall_cons, <- IH. clear IH. unfold column_usable.
    destruct (TypeConverter.should_ignore_column col rules) eqn:E.
    + split.
      * intros (kept & ignored & defs & Hf & Hm).
        destruct (column_name col) as [name|]; simpl in Hf; [|done].
        destruct (data_type col) as [ty|]; simpl in Hf; [|done].
        destruct (filter_columns rules cols) as [[k i]|]; simpl in Hf;
          [|done].
        injection Hf as <- <-.
        split; [|by exists k, i, defs].
        split; [by eexists |]. exists ty. by split.
      * intros [[[name Hn] (ty & Ht & _)] (k & i & defs & Hf & Hm)].
        rewrite Hn, Ht, Hf. simpl. by exists k, (name :: i), defs.
    + split.
      * intros (kept & ignored & defs & Hf & Hm).
        destruct (filter_columns rules cols) as [[k i]|]; simpl in Hf;
          [|done].
        injection Hf as <- <-. simpl in Hm.
        destruct (column_def type_mapping pks col) as [d|] eqn:Ed;
          simpl in Hm; [|done].
        destruct (mapM _ k) as [ds|] eqn:Ek; simpl in Hm; [|done].
        split; [|by exists k, i, ds].
        unfold column_def in Ed.
        destruct (column_name col) as [name|]; simpl in Ed; [|done].
        destruct (data_type col) as [ty|]; simpl in Ed; [|done].
        destruct (is_nullable col) as [nu|]; simpl in Ed; [|done].
        destruct (TypeMapping.convert_column_type type_mapping ty col)
          as [target|] eqn:Ec; simpl in Ed; [|done].
        split; [by eexists |]. exists ty. split; [done |].
        intros _. split; [by eexists | by exists target].
      * intros [[[name Hn] (ty & Ht & H)] (k & i & defs & Hf & Hm)].
        destruct (H eq_refl) as [[nu Hnu] [target Hc]].
        rewrite Hf. simpl. eexists (col :: k), i, _. split; [done |].
        simpl. unfold column_def at 1. rewrite Hn, Ht, Hnu. simpl.
        rewrite Hc. simpl. by rewrite Hm.
Qed.

(** X11: [generate_create_table_sql] returns exactly when every column has
    a name and a type and every column that is not ignored also has
    [is_nullable] and a type whose template can be filled in; otherwise it
    raises. *)
Theorem generate_returns_iff (type_mapping : gmap string string)
    (schema : table_schema) (rules : list string) :
  (exists result,
     generate_create_table_sql type_mapping schema rules = Returned result)
  <-> Forall (column_usable type_mapping rules) (columns schema).
Proof.
  rewrite <- (generate_parts_iff type_mapping (primary_keys schema)).
  unfold generate_create_table_sql. split.
  - intros [result H].
    destruct (filter_columns rules (columns schema)) as [[kept ign]|];
      simpl in H; [|done].
    destruct (mapM _ kept) as [defs|] eqn:Em; simpl in H; [|done].
    by exists kept, ign, defs.
  - intros (kept & ign & defs & -> & Hm). simpl. rewrite Hm. simpl.
    by eexists.
Qed.

Lemma ignored_names_filter_columns (rules : list string)
    (cols kept : list column_info) (ignored : list string) :
  filter_columns rules cols = Returned (kept, ignored) ->
  Main.ignored_names rules cols = Returned ignored.
Proof.
  revert kept ignored.
  induction cols as [|col cols IH]; intros kept ignored H; simpl in *.
  - by injection H as <- <-.
  - destruct (TypeConverter.should_ignore_column col rules).
    + destruct (column_name col) as [name|]; simpl in *; [|done].
      destruct (data_type col); simpl in H; [|done].
      destruct (filter_columns rules cols) as [[k i]|]; simpl in H; [|done].
      injection H as <- <-. by rewrite (IH k i).
    + destruct (filter_columns rules cols) as [[k i]|]; simpl in H; [|done].
      injection H as <- <-. by apply (IH k i).
Qed.

Section IgnoredColumnsMap.

Variable get_table_schema : string -> outcome table_schema.
Variable rules : list string.

(** The entry a table should have. *)
Definition right_entry (table : string) (names : list string) : Prop :=
  exists schema_info,
    get_table_schema table = Returned schema_info /\
    Main.ignored_names rules (columns schema_info) = Returned names.

Lemma ignored_columns_loop_sound (tables : list string)
    (acc result : gmap string (list string)) :
  Main.ignored_columns_loop get_table_schema rules tables acc =
    Returned result ->
  (forall t names, acc !! t = Some names -> right_entry t names) ->
  forall t names, result !! t = Some names -> right_entry t names.
Proof.
  revert acc. induction tables as [|table tables IH]; intros acc H Hacc;
    simpl in H.
  - by injection H as <-.
  - destruct (get_table_schema table) as [schema_info|] eqn:Es;
      simpl in H; [|done].
    destruct (Main.ignored_names rules (columns schema_info))
      as [names|] eqn:En; simpl in H; [|done].
    eapply IH; [exact H |].
    intros t l. destruct names as [|n names]; [apply Hacc |].
    destruct (decide (table = t)) as [->|Hne].
    + rewrite lookup_insert_eq. intros [= <-]. by exists schema_info.
    + rewrite lookup_insert_ne by done. apply Hacc.
Qed.

Lemma ignored_columns_loop_keeps (tables : list string)
    (acc result : gmap string (list string)) (t : string) :
  Main.ignored_columns_loop get_table_schema rules tables acc =
    Returned result ->
  is_Some (acc !! t) -> is_Some (result !! t).
Proof.
  revert acc. induction tables as [|table tables IH]; intros acc H Hacc;
    simpl in H.
  - by injection H as <-.
  - destruct (get_table_schema table) as [schema_info|]; simpl in H; [|done].
    destruct (Main.ignored_names rules (columns schema_info))
      as [names|]; simpl in H; [|done].
    eapply IH; [exact H |].
    destruct names as [|n names]; [done |].
    destruct (decide (table = t)) as [->|Hne].
    + rewrite lookup_insert_eq. by eexists.
    + by rewrite lookup_insert_ne.
Qed.

Lemma ignored_columns_loop_complete (tables : list string)
    (acc result : gmap string (list string)) (t : string)
    (names : list string) :
  Main.ignored_columns_loop get_table_schema rules tables acc =
    Returned result ->
  t ∈ tables -> right_entry t names -> names <> [] ->
  is_Some (result !! t).
Proof.
  revert acc. induction tables as [|table tables IH]; intros acc H Hin Hr Hne;
    simpl in H.
  - inversion Hin.
  - destruct (get_table_schema table) as [schema_info|] eqn:Es;
      simpl in H; [|done].
    destruct (Main.ignored_names rules (columns schema_info))
      as [l|] eqn:En; simpl in H; [|done].
    apply elem_of_cons in Hin as [-> | Hin]; [|by eapply IH].
    destruct Hr as (schema_info' & Hs' & Hn').
    rewrite Es in Hs'. injection Hs' as <-.
    rewrite En in Hn'. injection Hn' as <-.
    destruct l as [|n l]; [done |].
    eapply ignored_columns_loop_keeps; [exact H |].
    rewrite lookup_insert_eq. by eexists.
Qed.

End IgnoredColumnsMap.

(** X12: the columns the data phase leaves out are the columns the DDL
    leaves out: for a table of the run whose DDL was generated from the
    schema the source reports, the entry of the map built by
    [get_ignored_columns] (the empty list when there is none) is the list
    [generate_create_table_sql] returns. *)
Theorem ignore_decision_consistent
    (get_table_schema : string -> outcome table_schema)
    (tables rules : list string)
    (ignored_columns_map : gmap string (list string))
    (table : string) (schema_info : table_schema)
    (type_mapping : gmap string string) (sql : string)
    (ignored : list string) :
  Main.get_ignored_columns get_table_schema tables rules =
    Returned ignored_columns_map ->
  table ∈ tables ->
  get_table_schema table = Returned schema_info ->
  generate_create_table_sql type_mapping schema_info rules =
    Returned (sql, ignored) ->
  default [] (ignored_columns_map !! table) = ignored.
Proof.
  unfold Main.get_ignored_columns. intros Hmap Hin Hs Hgen.
  assert (Main.ignored_names rules (columns schema_info) = Returned ignored)
    as Hnames.
  { unfold generate_create_table_sql in Hgen.
    destruct (filter_columns rules (columns schema_info))
      as [[kept ign]|] eqn:Ef; simpl in Hgen; [|done].
    destruct (mapM _ kept); simpl in Hgen; [|done].
    injection Hgen as _ <-. by eapply ignored_names_filter_columns. }
  destruct (ignored_columns_map !! table) as [names|] eqn:El; simpl.
  - destruct (ignored_columns_loop_sound _ _ _ _ _ Hmap
                ltac:(intros ? ?; by rewrite lookup_empty) _ _ El)
      as (schema_info' & Hs' & Hn').
    rewrite Hs in Hs'. injection Hs' as <-. congruence.
  - destruct ignored as [|n ignored]; [done |].
    destruct (ignored_columns_loop_complete get_table_schema rules tables ∅
                ignored_columns_map table (n :: ignored) Hmap Hin)
      as [x Hx]; [by exists schema_info | done | congruence].
Qed.

Lemma ignore_decision_consistent_witness :
  default []
    (default ∅
       (match Main.get_ignored_columns (fun _ => Returned orders_schema)
                ["orders"] ["json"]
        with Returned m => Some m | Raised _ => None end) !! "orders") =
  ["tags"].
Proof.
  apply (ignore_decision_consistent (fun _ => Returned orders_schema)
           ["orders"] ["json"] _ "orders" orders_schema mapping
           (default ("", [])
              (match generate_create_table_sql mapping orders_schema ["json"]
               with Returned r => Some r | Raised _ => None end)).1);
    [by vm_compute | by left | done | by vm_compute].
Defined.

End GenerateFacts.

(** ** The run over the tables of a schema *)
Module SchemaRunFacts.
Import SchemaRun.

Section Clients.

Variable W : Type.
Variable get_table_schema : string -> W -> outcome table_schema * W.
Variable create_table : string -> W -> outcome bool * W.
Variable get_table_indexes : string -> W -> outcome (list index_info) * W.
Variable create_index : string -> W -> outcome bool * W.
Variable type_mapping : gmap string string.

Local Abbreviation loop := (index_loop W create_index).
Local Abbreviation one :=
  (migrate_one W get_table_schema create_table get_table_indexes
     create_index type_mapping).
Local Abbreviation run :=
  (migrate_schema W get_table_schema create_table get_table_indexes
     create_index type_mapping).

(** The statements of the indexes that use no ignored column. *)
Definition index_statements (table : string) (ignored : list string)
    (indexes : list index_info) : list ddl :=
  (fun index => CreateIndex (index_sql table index)) <$>
  filter (fun index => uses_ignored ignored index = false) indexes.

Lemma index_loop_lists (table : string) (ignored : list string)
    (indexes : list index_info) (st : run_state W) :
  success (results (loop table ignored indexes st).2) = success (results st) /\
  failed (results (loop table ignored indexes st).2) = failed (results st).
Proof.
  revert st. induction indexes as [|index indexes IH]; intros st; [done |].
  simpl. destruct (uses_ignored ignored index); [apply IH |].
  destruct (create_index _ _) as [[[]|e] w]; simpl; [| |done].
  - destruct (IH (send (CreateIndex (index_sql table index))
                    (set_world w st))) as [-> ->]. done.
  - destruct (IH (add_index_failed table (index_name index)
                    (send (CreateIndex (index_sql table index))
                       (set_world w st)))) as [-> ->]. done.
Qed.

(** X15: an index is sent to the target whole or not at all: the
    statements the index loop sends are, in order, the CREATE INDEX
    statements of the indexes none of whose columns is ignored -- all of
    them when the loop ends normally, the first few when a call raises. *)
Theorem index_loop_sent (table : string) (ignored : list string)
    (indexes : list index_info) (st : run_state W) :
  exists statements,
    sent (loop table ignored indexes st).2 = sent st ++ statements /\
    statements `prefix_of` index_statements table ignored indexes /\
    ((loop table ignored indexes st).1 = None ->
     statements = index_statements table ignored indexes).
Proof.
  revert st. unfold index_statements.
  induction indexes as [|index indexes IH]; intros st.
  - exists []. by rewrite app_nil_r.
  - simpl. rewrite filter_cons.
    destruct (uses_ignored ignored index) eqn:E.
    { rewrite decide_False by done. apply IH. }
    rewrite decide_True by done. rewrite fmap_cons.
    set (stmt := CreateIndex (index_sql table index)).
    destruct (create_index _ _) as [[ok|e] w]; simpl.
    + set (st1 := if ok then send stmt (set_world w st)
                  else add_index_failed table (index_name index)
                         (send stmt (set_world w st))).
      destruct (IH st1) as (l & Hs & Hp & Hn).
      assert (sent st1 = sent st ++ [stmt]) as Hst1 by (by destruct ok).
      exists (stmt :: l).
      assert (loop table ignored indexes st1 =
              (if ok then loop table ignored indexes
                            (send stmt (set_world w st))
               else loop table ignored indexes
                      (add_index_failed table (index_name index)
                         (send stmt (set_world w st))))) as Hl
        by (by destruct ok).
      destruct ok; rewrite <- Hl, Hs, Hst1, <- app_assoc;
        (split; [done |]); (split; [by apply prefix_cons |]);
        intros H; by rewrite (Hn H).
    + exists [stmt]. split; [done |]. split; [|done].
      apply prefix_cons, prefix_nil.
Qed.

(** What one table adds to the two lists. *)
Lemma migrate_one_lists (rules : list string) (table : string)
    (st : run_state W) :
  exists s f,
    success (results (one rules table st)) = success (results st) ++ s /\
    failed (results (one rules table st)) = failed (results st) ++ f /\
    ((s = [] /\ f = [table]) \/ (s = [table] /\ f = []) \/
     (s = [table] /\ f = [table])).
Proof.
  unfold migrate_one.
  destruct (get_table_schema table (world st)) as [[sch|e] w]; simpl;
    [| exists [], [table]; rewrite app_nil_r; naive_solver].
  destruct (SchemaMigrator.generate_create_table_sql _ _ _)
    as [[sql ignored]|e]; simpl;
    [| exists [], [table]; rewrite app_nil_r; naive_solver].
  destruct (create_table sql w) as [[[]|e] w']; simpl;
    [| exists [], [table]; rewrite app_nil_r; naive_solver
     | exists [], [table]; rewrite app_nil_r; naive_solver].
  destruct (get_table_indexes table w') as [[indexes|e] w'']; simpl;
    [| exists [table], [table]; naive_solver].
  match goal with
  | |- context [index_loop W create_index table ignored indexes ?s] =>
      pose proof (index_loop_lists table ignored indexes s) as [Hs Hf];
      destruct (index_loop W create_index table ignored indexes s)
        as [[e|] st']
  end; simpl in *; rewrite ?Hs, ?Hf.
  - exists [table], [table]. naive_solver.
  - exists [table], []. rewrite app_nil_r. naive_solver.
Qed.

(** X13: a table that was created but whose indexes could not be listed
    is reported twice: it is already in [success] when the exception
    reaches the handler that puts it in [failed]. *)
Theorem created_then_failed (rules : list string) (table : string)
    (st : run_state W) (pg_schema : table_schema) (sql : string)
    (ignored : list string) (w1 w2 w3 : W) (e : exn) :
  get_table_schema table (world st) = (Returned pg_schema, w1) ->
  SchemaMigrator.generate_create_table_sql type_mapping pg_schema rules =
    Returned (sql, ignored) ->
  create_table sql w1 = (Returned true, w2) ->
  get_table_indexes table w2 = (Raised e, w3) ->
  success (results (one rules table st)) = success (results st) ++ [table] /\
  failed (results (one rules table st)) = failed (results st) ++ [table] /\
  ignored_columns (results (one rules table st)) !! table = Some ignored /\
  sent (one rules table st) = sent st ++ [CreateTable sql].
Proof.
  intros Hs Hg Hc Hi. unfold migrate_one.
  rewrite Hs. simpl. rewrite Hg. simpl. rewrite Hc. simpl. rewrite Hi. simpl.
  by rewrite lookup_insert_eq.
Qed.

(** X14: every table of the run ends up in [success] or in [failed] (or
    in both), and each of the two lists names tables of the run in the
    order of the run, a table at most as often as the run has it. *)
Theorem every_table_reported (tables : list string)
    (ignore_types : option (list string)) (w : W) :
  let r :=
    results (migrate_schema W get_table_schema create_table
               get_table_indexes create_index type_mapping
               tables ignore_types w) in
  (forall table, table ∈ tables -> table ∈ success r \/ table ∈ failed r) /\
  success r `sublist_of` tables /\
  failed r `sublist_of` tables.
Proof.
  unfold migrate_schema.
  set (rules := default _ ignore_types).
  assert (forall st,
    exists s f,
      success (results (foldl (fun st table => one rules table st) st tables))
        = success (results st) ++ s /\
      failed (results (foldl (fun st table => one rules table st) st tables))
        = failed (results st) ++ f /\
      (forall table, table ∈ tables -> table ∈ s \/ table ∈ f) /\
      s `sublist_of` tables /\ f `sublist_of` tables) as H.
  { induction tables as [|table tables IH]; intros st; simpl.
    - exists [], []. rewrite !app_nil_r. repeat split; try done.
      intros t Ht. inversion Ht.
    - destruct (migrate_one_lists rules table st)
        as (s1 & f1 & Hs1 & Hf1 & Hcase).
      destruct (IH (one rules table st)) as (s & f & Hs & Hf & Hin & Hss & Hsf).
      exists (s1 ++ s), (f1 ++ f).
      rewrite Hs, Hf, Hs1, Hf1, <- !app_assoc.
      split; [done |]. split; [done |]. split.
      + intros t Ht. apply elem_of_cons in Ht as [-> | Ht].
        * destruct Hcase as [[-> ->] | [[-> ->] | [-> ->]]];
            [right | left | left]; apply elem_of_app; left; by left.
        * destruct (Hin t Ht); [left | right]; apply elem_of_app; by right.
      + destruct Hcase as [[-> ->] | [[-> ->] | [-> ->]]]; simpl;
          split; (by apply sublist_skip) || (by apply sublist_cons). }
  destruct (H (initial w)) as (s & f & Hs & Hf & Hin & Hss & Hsf).
  simpl in Hs, Hf. simpl. rewrite Hs, Hf. by repeat split.
Qed.

End Clients.

Lemma index_loop_sent_witness :
  sent (index_loop unit Samples3.accepts_all "orders" ["tags"]
          Samples3.orders_indexes (initial tt)).2 =
  [CreateIndex "CREATE INDEX `idx_status` ON `orders` (`status`);"].
Proof.
  destruct (index_loop_sent unit Samples3.accepts_all "orders" ["tags"]
              Samples3.orders_indexes (initial tt)) as (l & -> & _ & H).
  rewrite H; [by vm_compute | by vm_compute].
Defined.

Lemma created_then_failed_witness :
  let st :=
    migrate_one unit Samples3.orders_only Samples3.accepts_all
      Samples3.no_index_listing Samples3.accepts_all Samples.mapping
      ["json"] "orders" (initial tt) in
  success (results st) = ["orders"] /\ failed (results st) = ["orders"].
Proof.
  destruct (created_then_failed unit Samples3.orders_only
              Samples3.accepts_all Samples3.no_index_listing
              Samples3.accepts_all Samples.mapping ["json"] "orders"
              (initial tt) Samples.orders_schema
              (default ("", [])
                 (match SchemaMigrator.generate_create_table_sql
                          Samples.mapping Samples.orders_schema ["json"]
                  with Returned r => Some r | Raised _ => None end)).1
              ["tags"] tt tt tt DatabaseError)
    as (Hs & Hf & _); [done | by vm_compute | done | done |].
  by split.
Defined.

Lemma every_table_reported_witness :
  "orders" ∈
    success (results (migrate_schema unit Samples3.orders_only
                        Samples3.accepts_all Samples3.no_index_listing
                        Samples3.accepts_all Samples.mapping
                        ["orders"] None tt)) \/
  "orders" ∈
    failed (results (migrate_schema unit Samples3.orders_only
                       Samples3.accepts_all Samples3.no_index_listing
                       Samples3.accepts_all Samples.mapping
                       ["orders"] None tt)).
Proof.
  destruct (every_table_reported unit Samples3.orders_only
              Samples3.accepts_all Samples3.no_index_listing
              Samples3.accepts_all Samples.mapping ["orders"] None tt)
    as [H _].
  apply H. by left.
Defined.

Lemma generate_returns_witness :
  exists result,
    SchemaMigrator.generate_create_table_sql Samples.mapping
      Samples.orders_schema ["json"] = Returned result.
Proof.
  apply GenerateFacts.generate_returns_iff.
  repeat (apply Forall_cons; split;
          [split; [by eexists |]; eexists; split; [reflexivity |];
           intros _; split; [by eexists |]; eexists; by vm_compute |]).
  apply Forall_nil_2.
Defined.

End SchemaRunFacts.

(** ** More on the data pipeline *)
Module PipelineMore.
Import DataMigrator Samples Samples2 Trace.

Lemma reads_app (a b : list call) : reads (a ++ b) = (reads a + reads b)%nat.
Proof. induction a as [|[] a IH]; simpl; lia. Qed.

Lemma insert_attempts_app (a b : list call) :
  insert_attempts (a ++ b) = (insert_attempts a + insert_attempts b)%nat.
Proof. induction a as [|[] a IH]; simpl; lia. Qed.

Lemma inserted_rows_app (a b : list call) :
  inserted_rows (a ++ b) = inserted_rows a ++ inserted_rows b.
Proof.
  induction a as [|[] a IH]; simpl; [done | done |].
  by rewrite IH, app_assoc.
Qed.

Section Loop.

Variable cfg : config.
Variable env : clients.
Variable column_types : gmap string string.
Variable total_count : Z.

Local Abbreviation body := (loop_body cfg env column_types).
Local Abbreviation run := (run_loop cfg env column_types total_count).

(** What a trace must satisfy along the loop. *)
Definition trace_ok (st : loop_state) : Prop :=
  passes cfg (trace st) /\
  reads (trace st) = iteration st /\
  (insert_attempts (trace st) <= iteration st)%nat.

Lemma loop_body_trace_ok (st : loop_state) :
  trace_ok st -> trace_ok (state_of (body st)).
Proof.
  intros (Hp & Hr & Hi). unfold trace_ok, loop_body, on_exception. simpl.
  destruct (get_table_data env _ _ _) as [[|r data]|e]; simpl.
  - rewrite reads_app, insert_attempts_app. simpl.
    split; [by constructor | lia].
  - assert (passes cfg
              ((trace st ++ [GetTableData (migrated st) (chunk_size cfg)]) ++
               [InsertBatch (convert_data column_types (r :: data))
                  (batch_size cfg)])) as Hp'.
    { rewrite <- app_assoc. by apply passes_read_insert. }
    assert (forall (calls : list call) (n : nat),
              calls =
                (trace st ++ [GetTableData (migrated st) (chunk_size cfg)]) ++
                [InsertBatch (convert_data column_types (r :: data))
                   (batch_size cfg)] ->
              n = S (iteration st) ->
              passes cfg calls /\ reads calls = n /\
              (insert_attempts calls <= n)%nat) as Hok.
    { intros calls n -> ->. split; [done |].
      rewrite !reads_app, !insert_attempts_app. simpl. lia. }
    destruct (insert_batch env _ _ _) as [inserted|e]; simpl.
    + destruct (inserted =? 0); simpl.
      * destruct (_ <? max_retries cfg); simpl.
        -- destruct (retry_delay cfg <? 0); simpl;
             [destruct (continue_on_error cfg) |]; by apply Hok.
        -- by apply Hok.
      * by apply Hok.
    + destruct (continue_on_error cfg); by apply Hok.
  - assert (passes cfg
              (trace st ++ [GetTableData (migrated st) (chunk_size cfg)]))
      by (by constructor).
    destruct (continue_on_error cfg); simpl;
      rewrite reads_app, insert_attempts_app; simpl; (split; [done | lia]).
Qed.

Lemma run_loop_trace_ok (fuel : nat) (st st' : loop_state) :
  run fuel st = Some st' -> trace_ok st -> trace_ok st'.
Proof.
  revert st. induction fuel as [|fuel IH]; intros st Hrun Hok; simpl in Hrun.
  - destruct (migrated st <? total_count); [done |]. by injection Hrun as <-.
  - destruct (migrated st <? total_count); [| by injection Hrun as <-].
    pose proof (loop_body_trace_ok st Hok) as Hok'.
    destruct (body st) as [st1|st1]; simpl in Hok'.
    + by apply (IH st1).
    + by injection Hrun as <-.
Qed.

End Loop.

(** X16: the calls [migrate_table_data] makes inside its loop come in
    passes: a read with [chunk_size] as its limit, followed or not by one
    insertion, with [batch_size], of a chunk that is never empty; so there
    are never more insertions than reads. *)
Theorem calls_come_in_passes (cfg : config) (env : clients) (name : string)
    (ignore_columns : list string) (fuel : nat)
    (r : gmap string value) (calls : list call) :
  migrate_table_data cfg env name ignore_columns fuel =
    Some (Returned (r, calls)) ->
  passes cfg calls /\ (insert_attempts calls <= reads calls)%nat.
Proof.
  unfold migrate_table_data.
  destruct (get_table_count env) as [total_count|]; [|done].
  destruct (total_count =? 0).
  { intros [= <- <-]. split; [constructor | done]. }
  destruct (get_table_schema env) as [schema_info|]; [|done].
  destruct (run_loop _ _ _ _ _ _) as [st|] eqn:Erun; [|done].
  intros [= <- <-].
  destruct (run_loop_trace_ok _ _ _ _ _ _ _ Erun) as (Hp & Hr & Hi).
  { split; [constructor | done]. }
  split; [done | lia].
Qed.

Lemma calls_come_in_passes_witness :
  passes settings_continue
    [GetTableData 0 100; GetTableData 0 100;
     InsertBatch two_rows_converted 1000].
Proof.
  apply (calls_come_in_passes settings_continue first_read_raises "users" []
           2 (default ∅
                (returned_dict
                   (migrate_table_data settings_continue first_read_raises
                      "users" [] 2)))).
  vm_compute. reflexivity.
Defined.

(** X17: a read that returns no rows ends the loop without touching the
    counters: if the very first read of a table that has rows comes back
    empty, the result is [success] with [migrated = 0] and no insertion
    was attempted. *)
Theorem empty_read_reports_success (cfg : config) (env : clients)
    (name : string) (ignore_columns : list string) (total_count : Z)
    (schema_info : table_schema) (fuel : nat) :
  get_table_count env = Returned total_count ->
  0 < total_count ->
  get_table_schema env = Returned schema_info ->
  get_table_data env 0 0 (chunk_size cfg) = Returned [] ->
  let out := migrate_table_data cfg env name ignore_columns (S fuel) in
  field "status" out = Some (VStr "success") /\
  field "migrated" out = Some (VInt 0) /\
  field "failed" out = Some (VInt 0) /\
  field "total" out = Some (VInt total_count) /\
  calls_made out = [GetTableData 0 (chunk_size cfg)].
Proof.
  intros Hcount Hpos Hschema Hread. unfold migrate_table_data.
  rewrite Hcount, (proj2 (Z.eqb_neq _ _)) by lia. rewrite Hschema.
  rewrite PipelineFacts.run_loop_step by done.
  unfold loop_body. simpl. rewrite Hread. simpl.
  unfold field. simpl.
  match goal with
  | |- context [summary name total_count ?s] =>
      destruct (PipelineFacts.summary_fields name total_count s)
        as (_ & -> & -> & -> & ->)
  end.
  done.
Qed.

Lemma empty_read_reports_success_witness :
  field "status" (migrate_table_data settings empty_source "users" [] 1) =
  Some (VStr "success").
Proof.
  by destruct (empty_read_reports_success settings empty_source "users" []
                 2 users_schema 0 eq_refl ltac:(lia) eq_refl eq_refl)
    as [H _].
Defined.

Section Transfer.

Variable cfg : config.
Variable env : clients.
Variable column_types : gmap string string.
Variable rows : list row.

Hypothesis chunk_positive : 0 < chunk_size cfg.
Hypothesis source_serves :
  forall i (m : nat),
    get_table_data env i (Z.of_nat m) (chunk_size cfg) =
    Returned (take (Z.to_nat (chunk_size cfg)) (drop m rows)).
Hypothesis target_accepts :
  forall i data b, insert_batch env i data b = Returned (Z.of_nat (length data)).

Local Abbreviation run' :=
  (run_loop cfg env column_types (Z.of_nat (length rows))).

Lemma take_drop_length {A : Type} (c : nat) (l : list A) :
  take c l ++ drop (length (take c l)) l = l.
Proof.
  destruct (decide (c <= length l)%nat) as [Hle|Hgt].
  - rewrite length_take, Nat.min_l by done. apply take_drop.
  - rewrite take_ge by lia. rewrite drop_all. apply app_nil_r.
Qed.

Lemma loop_body_chunk (st : loop_state) (m : nat) :
  migrated st = Z.of_nat m -> (m < length rows)%nat ->
  let data := take (Z.to_nat (chunk_size cfg)) (drop m rows) in
  data <> [] /\
  loop_body cfg env column_types st =
  Continue
    {| migrated := Z.of_nat (m + length data);
       failed := failed st; retry_count := 0;
       iteration := S (iteration st);
       trace := trace st ++
         [GetTableData (Z.of_nat m) (chunk_size cfg);
          InsertBatch (convert_data column_types data) (batch_size cfg)] |}.
Proof.
  intros Hm Hlt data.
  assert (data <> []) as Hne.
  { unfold data. destruct (drop m rows) as [|x l] eqn:Ed.
    - apply (f_equal length) in Ed. rewrite length_drop in Ed. simpl in Ed. lia.
    - destruct (Z.to_nat (chunk_size cfg)) eqn:Ec; [lia | done]. }
  split; [done |].
  unfold loop_body. simpl. rewrite Hm, source_serves. fold data.
  destruct data as [|r data'] eqn:Edata; [done |].
  rewrite target_accepts.
  replace (Z.of_nat (length (convert_data column_types (r :: data'))) =? 0)
    with false by (symmetry; apply Z.eqb_neq; simpl; lia).
  unfold next_iteration, set_retry_count, add_migrated, log. simpl.
  rewrite Hm, <- app_assoc. simpl. f_equal. f_equal.
  unfold convert_data. rewrite length_fmap. simpl. lia.
Qed.

Lemma transfer_rest (fuel : nat) (st : loop_state) (m : nat) :
  migrated st = Z.of_nat m -> (m <= length rows)%nat ->
  (length rows - m <= fuel)%nat ->
  exists st',
    run' fuel st = Some st' /\
    migrated st' = Z.of_nat (length rows) /\
    failed st' = failed st /\
    inserted_rows (trace st') =
      inserted_rows (trace st) ++ convert_data column_types (drop m rows).
Proof.
  revert st m. induction fuel as [|fuel IH]; intros st m Hm Hle Hfuel.
  - assert (m = length rows) as -> by lia.
    exists st. rewrite PipelineFacts.run_loop_done by lia.
    rewrite drop_all. simpl. by rewrite app_nil_r.
  - destruct (decide (m = length rows)) as [-> | Hne].
    { exists st. rewrite PipelineFacts.run_loop_done by lia.
      rewrite drop_all. simpl. by rewrite app_nil_r. }
    rewrite PipelineFacts.run_loop_step by lia.
    destruct (loop_body_chunk st m Hm ltac:(lia)) as [Hdata ->].
    set (data := take (Z.to_nat (chunk_size cfg)) (drop m rows)) in *.
    assert (0 < length data)%nat as Hlen by (destruct data; simpl; [done | lia]).
    assert (length data <= length rows - m)%nat as Hbound.
    { unfold data. rewrite length_take, length_drop. lia. }
    match goal with
    | |- context [run_loop _ _ _ _ fuel ?s] =>
        destruct (IH s (m + length data)%nat) as (st' & Hrun & Hmig & Hf & Hins);
          [done | lia | lia |]
    end.
    exists st'. split; [done |]. split; [done |]. split; [done |].
    rewrite Hins. simpl trace. rewrite inserted_rows_app. simpl.
    rewrite app_nil_r, <- app_assoc. f_equal.
    unfold convert_data. rewrite <- fmap_app. f_equal.
    rewrite <- drop_drop. apply take_drop_length.
Qed.

End Transfer.

(** X18: when the source serves the rows of the table by offset and limit
    and the target accepts every chunk, [migrate_table_data] (with a
    positive chunk size, and as much fuel as there are rows) reports
    [success] with all rows migrated and none failed, and the rows handed
    to [insert_batch] over the whole run are the converted rows of the
    table, each once and in order. *)
Theorem all_rows_transferred (cfg : config) (env : clients) (name : string)
    (ignore_columns : list string) (schema_info : table_schema)
    (rows : list row) (fuel : nat) :
  0 < chunk_size cfg ->
  rows <> [] ->
  get_table_count env = Returned (Z.of_nat (length rows)) ->
  get_table_schema env = Returned schema_info ->
  (forall i (m : nat),
     get_table_data env i (Z.of_nat m) (chunk_size cfg) =
     Returned (take (Z.to_nat (chunk_size cfg)) (drop m rows))) ->
  (forall i data b,
     insert_batch env i data b = Returned (Z.of_nat (length data))) ->
  (length rows <= fuel)%nat ->
  let out := migrate_table_data cfg env name ignore_columns fuel in
  field "status" out = Some (VStr "success") /\
  field "migrated" out = Some (VInt (Z.of_nat (length rows))) /\
  field "failed" out = Some (VInt 0) /\
  field "total" out = Some (VInt (Z.of_nat (length rows))) /\
  inserted_rows (calls_made out) =
    convert_data
      (column_type_loop ignore_columns (columns schema_info) ∅) rows.
Proof.
  intros Hchunk Hne Hcount Hschema Hread Hins Hfuel.
  unfold migrate_table_data. rewrite Hcount.
  replace (Z.of_nat (length rows) =? 0) with false
    by (symmetry; apply Z.eqb_neq; destruct rows; simpl; [done | lia]).
  rewrite Hschema.
  destruct (transfer_rest cfg env
              (column_type_loop ignore_columns (columns schema_info) ∅)
              rows Hchunk Hread Hins fuel initial_state 0)
    as (st & -> & Hm & Hf & Htr); [done | lia | lia |].
  unfold field. simpl.
  destruct (PipelineFacts.summary_fields name (Z.of_nat (length rows)) st)
    as (_ & -> & -> & -> & ->).
  simpl in Hf, Htr. rewrite Hm, Hf. simpl. by rewrite Htr.
Qed.

Lemma all_rows_transferred_witness :
  let out := migrate_table_data small_chunks (table_source three_rows)
               "users" [] 3 in
  field "status" out = Some (VStr "success") /\
  field "migrated" out = Some (VInt 3) /\
  insert_attempts (calls_made out) = 2%nat.
Proof.
  destruct (all_rows_transferred small_chunks (table_source three_rows)
              "users" [] users_schema three_rows 3)
    as (Hs & Hm & _); [done | done | done | done | | done | simpl; lia |].
  { intros i m. simpl. by rewrite Nat2Z.id. }
  split; [exact Hs |]. split; [exact Hm |]. vm_compute. reflexivity.
Defined.

Section Bound.

Variable cfg : config.
Variable env : clients.
Variable column_types : gmap string string.
Variable total_count : Z.

Lemma loop_body_iteration (st : loop_state) :
  iteration (state_of (loop_body cfg env column_types st)) =
  S (iteration st).
Proof.
  unfold loop_body, on_exception. simpl.
  destruct (get_table_data env _ _ _) as [[|r data]|e]; simpl; [done | |].
  - destruct (insert_batch env _ _ _) as [inserted|e]; simpl.
    + destruct (inserted =? 0); simpl; [|done].
      destruct (_ <? max_retries cfg); simpl; [|done].
      destruct (retry_delay cfg <? 0); simpl; [|done].
      by destruct (continue_on_error cfg).
    + by destruct (continue_on_error cfg).
  - by destruct (continue_on_error cfg).
Qed.

Lemma run_loop_iterations (fuel : nat) (st st' : loop_state) :
  continue_on_error cfg = false ->
  (forall i data b n, insert_batch env i data b = Returned n -> 0 <= n) ->
  run_loop cfg env column_types total_count fuel st = Some st' ->
  (iteration st' <=
   iteration st + PipelineFacts.passes_left cfg total_count st + 1)%nat.
Proof.
  intros Hc Hpos. revert st.
  induction fuel as [|fuel IH]; intros st Hrun; simpl in Hrun.
  - destruct (migrated st <? total_count); [done |].
    injection Hrun as <-. lia.
  - destruct (migrated st <? total_count) eqn:Elt;
      [| injection Hrun as <-; lia].
    apply Z.ltb_lt in Elt.
    pose proof (loop_body_iteration st) as Hit.
    destruct (loop_body cfg env column_types st) as [st1|st1] eqn:Eb;
      simpl in Hit.
    + apply IH in Hrun. rewrite Hit in Hrun.
      enough (PipelineFacts.passes_left cfg total_count st1 <
              PipelineFacts.passes_left cfg total_count st)%nat by lia.
      destruct (PipelineFacts.loop_body_continue cfg env column_types
                  st st1 Hc Hpos Eb) as [[Hm Hr] | (Hm & Hlt & Hr)];
        unfold PipelineFacts.passes_left; rewrite Hr.
      * rewrite Z.sub_0_r.
        assert (Z.to_nat (total_count - migrated st1) + 1 <=
                Z.to_nat (total_count - migrated st))%nat by lia.
        nia.
      * rewrite Hm.
        assert (Z.to_nat (max_retries cfg - (retry_count st + 1)) + 1 =
                Z.to_nat (max_retries cfg - retry_count st))%nat by lia.
        lia.
    + injection Hrun as <-. lia.
Qed.

End Bound.

(** X23: with [continue_on_error] off and a target that never reports a
    negative count, the loop of [migrate_table_data] reads at most
    [total * (max_retries + 1) + max_retries + 1] chunks: each row still
    to migrate can cost one successful pass and [max_retries] failed ones
    before it, and one more pass may end the loop. *)
Theorem reads_bounded (cfg : config) (env : clients) (name : string)
    (ignore_columns : list string) (total_count : Z) (fuel : nat)
    (r : gmap string value) (calls : list call) :
  continue_on_error cfg = false ->
  (forall i data b n, insert_batch env i data b = Returned n -> 0 <= n) ->
  get_table_count env = Returned total_count ->
  migrate_table_data cfg env name ignore_columns fuel =
    Some (Returned (r, calls)) ->
  (reads calls <=
   Z.to_nat total_count * (Z.to_nat (max_retries cfg) + 1) +
   Z.to_nat (max_retries cfg) + 1)%nat.
Proof.
  intros Hc Hpos Hcount. unfold migrate_table_data. rewrite Hcount.
  destruct (total_count =? 0).
  { intros [= <- <-]. simpl. lia. }
  destruct (get_table_schema env) as [schema_info|]; [|done].
  destruct (run_loop _ _ _ _ _ _) as [st|] eqn:Erun; [|done].
  intros [= <- <-].
  destruct (run_loop_trace_ok _ _ _ _ _ _ _ Erun) as (_ & Hr & _).
  { split; [constructor | done]. }
  rewrite Hr.
  pose proof (run_loop_iterations _ _ _ _ _ _ _ Hc Hpos Erun) as Hb.
  unfold PipelineFacts.passes_left in Hb. simpl in Hb.
  rewrite !Z.sub_0_r in Hb. lia.
Qed.

Lemma reads_bounded_witness :
  (reads
     (calls_made
        (migrate_table_data settings all_inserts_fail "users" [] 10)) <=
   Z.to_nat 2 * (Z.to_nat (max_retries settings) + 1) +
   Z.to_nat (max_retries settings) + 1)%nat.
Proof.
  assert (migrate_table_data settings all_inserts_fail "users" [] 10 =
          Some (Returned
                  (default ∅
                     (returned_dict
                        (migrate_table_data settings all_inserts_fail
                           "users" [] 10)),
                   calls_made
                     (migrate_table_data settings all_inserts_fail
                        "users" [] 10)))) as H
    by (vm_compute; reflexivity).
  refine (reads_bounded settings all_inserts_fail "users" [] 2 10 _ _
            eq_refl _ eq_refl H).
  intros i data b n [= <-]. lia.
Defined.

End PipelineMore.

(** ** Column types and the conversion of rows *)
Module ConversionFacts.
Import DataMigrator Samples.

Lemma or_text_nonempty (s : string) : or_text s <> "".
Proof. unfold or_text. by destruct s. Qed.

(** Where an entry of the type map comes from. *)
Definition from_column (ignore_columns : list string)
    (cols : list column_info) (k v : string) : Prop :=
  k <> "" /\ (k ∉ ignore_columns) /\
  exists col,
    col ∈ cols /\ column_name col = Some k /\
    v = or_text (_normalize_postgres_type (default "" (data_type col))).

Lemma column_type_loop_entries (ignore_columns : list string)
    (cols : list column_info) (acc : gmap string string) (k v : string) :
  column_type_loop ignore_columns cols acc !! k = Some v ->
  acc !! k = Some v \/ from_column ignore_columns cols k v.
Proof.
  revert acc. induction cols as [|col cols IH]; intros acc H; simpl in H.
  - by left.
  - assert (forall v', from_column ignore_columns cols k v' ->
                       from_column ignore_columns (col :: cols) k v') as Hweak.
    { intros v' (? & ? & c & Hc & ?). split; [done |]. split; [done |].
      exists c. split; [by right | done]. }
    destruct (column_name col) as [name|] eqn:En.
    2:{ destruct (IH _ H); [by left | right; by apply Hweak]. }
    destruct (PyStr.is_empty name || bool_decide (name ∈ ignore_columns))
      eqn:Eskip.
    { destruct (IH _ H); [by left | right; by apply Hweak]. }
    apply orb_false_iff in Eskip as [Hne Hign].
    apply bool_decide_eq_false in Hign.
    destruct (IH _ H) as [Hacc | Hfrom]; [| right; by apply Hweak].
    destruct (decide (name = k)) as [-> | Hk].
    + rewrite lookup_insert_eq in Hacc. injection Hacc as <-.
      right. split; [by destruct k |]. split; [done |].
      exists col. split; [by left | done].
    + rewrite lookup_insert_ne in Hacc by done. by left.
Qed.

Lemma column_type_loop_keeps (ignore_columns : list string)
    (cols : list column_info) (acc : gmap string string) (k : string) :
  is_Some (acc !! k) ->
  is_Some (column_type_loop ignore_columns cols acc !! k).
Proof.
  revert acc. induction cols as [|col cols IH]; intros acc H; simpl; [done |].
  destruct (column_name col) as [name|]; [| by apply IH].
  destruct (PyStr.is_empty name || bool_decide (name ∈ ignore_columns));
    [by apply IH |].
  apply IH. destruct (decide (name = k)) as [-> | Hk].
  - rewrite lookup_insert_eq. by eexists.
  - by rewrite lookup_insert_ne.
Qed.

(** X19: the type map of [_get_column_type_map] has an entry exactly for
    the column names that are not empty and not to be ignored; an entry is
    never the empty string: it is the lower-cased type of a column of that
    name ([timestamptz] and [timestamp] for the two long spellings), or
    [text] when that column has no type. *)
Theorem column_type_map_entries (ignore_columns : list string)
    (cols : list column_info) :
  let column_types := column_type_loop ignore_columns cols ∅ in
  (forall k v,
     column_types !! k = Some v ->
     v <> "" /\ from_column ignore_columns cols k v) /\
  (forall col k,
     col ∈ cols -> column_name col = Some k -> k <> "" ->
     k ∉ ignore_columns -> is_Some (column_types !! k)).
Proof.
  split.
  - intros k v H.
    destruct (column_type_loop_entries _ _ _ _ _ H) as [He | Hfrom].
    { by rewrite lookup_empty in He. }
    split; [|done]. destruct Hfrom as (_ & _ & col & _ & _ & ->).
    apply or_text_nonempty.
  - generalize (∅ : gmap string string) as acc.
    induction cols as [|c cols IH]; intros acc col k Hin Hn Hne Hign.
    { inversion Hin. }
    simpl. apply elem_of_cons in Hin as [<- | Hin].
    + rewrite Hn.
      replace (PyStr.is_empty k) with false by (by destruct k).
      rewrite bool_decide_eq_false_2 by done. simpl.
      apply column_type_loop_keeps. rewrite lookup_insert_eq. by eexists.
    + destruct (column_name c) as [name|]; [| by eapply IH].
      destruct (PyStr.is_empty name || bool_decide (name ∈ ignore_columns));
        by eapply IH.
Qed.

Lemma column_type_map_entries_witness :
  is_Some (column_type_loop ["id"] (columns users_schema) ∅ !! "is_active").
Proof.
  destruct (column_type_map_entries ["id"] (columns users_schema)) as [_ H].
  eapply (H _ "is_active").
  - apply elem_of_cons. right. by left.
  - done.
  - done.
  - intros Hin. apply list_elem_of_singleton in Hin. done.
Defined.

Lemma convert_value_none (v : value) (postgres_type : string) :
  TypeConverter.convert_value v postgres_type = VNone <-> v = VNone.
Proof.
  unfold TypeConverter.convert_value.
  destruct v as [|b|z|s|r t]; [done | ..];
    repeat case_decide; try done; simpl.
  - by destruct b.
  - by destruct (z =? 0).
  - by destruct s.
  - by destruct t.
Qed.

Lemma convert_value_other (v : value) (postgres_type : string) :
  PyStr.lower postgres_type <> "boolean" ->
  PyStr.lower postgres_type <> "uuid" ->
  TypeConverter.convert_value v postgres_type = v.
Proof.
  intros Hb Hu. unfold TypeConverter.convert_value.
  destruct v; [done | ..]; by repeat case_decide.
Qed.

(** The type a cell is converted with. *)
Definition cell_type (column_types : gmap string string) (k : string)
  : string :=
  PyStr.lower (or_text (default "" (column_types !! k))).

(** How a cell and its conversion relate. *)
Definition cell_converted (column_types : gmap string string)
    (c c' : string * value) : Prop :=
  c'.1 = c.1 /\
  (c'.2 = VNone <-> c.2 = VNone) /\
  (cell_type column_types c.1 <> "boolean" ->
   cell_type column_types c.1 <> "uuid" -> c'.2 = c.2) /\
  (cell_type column_types c.1 = "boolean" ->
   c'.2 = if decide (c.2 = VNone) then VNone
          else if truthy c.2 then VInt 1 else VInt 0).

(** X20: the conversion of a chunk keeps its shape: as many rows, in each
    row the same column names in the same order, [None] exactly where
    there was [None]; a cell of a boolean column becomes 1 or 0, and a
    cell whose column is neither boolean nor uuid (or is not in the type
    map) is not changed. *)
Theorem convert_data_shape (column_types : gmap string string)
    (data : list row) :
  length (convert_data column_types data) = length data /\
  Forall2 (Forall2 (cell_converted column_types)) data
    (convert_data column_types data).
Proof.
  unfold convert_data. split; [apply length_fmap |].
  apply Forall2_fmap_r, Forall_Forall2_diag, Forall_forall. intros r _.
  unfold convert_row.
  apply Forall2_fmap_r, Forall_Forall2_diag, Forall_forall.
  intros [k v] _. unfold cell_converted, cell_type. simpl.
  split; [done |]. split; [apply convert_value_none |].
  split; [intros; by apply convert_value_other |].
  intros Hb. unfold TypeConverter.convert_value.
  destruct v; [done | ..]; by rewrite decide_True.
Qed.

End ConversionFacts.

(** ** The run over the tables: data *)
Module DataRunFacts.
Import DataMigrator DataRun Samples Samples2.

(** The three kinds of dictionary [migrate_table_data] returns. *)
Definition is_skipped (d : gmap string value) : Prop :=
  d !! "status" = Some (VStr "skipped") /\ d !! "migrated" = None.

Definition is_success (d : gmap string value) : Prop :=
  d !! "status" = Some (VStr "success") /\ d !! "failed" = Some (VInt 0).

Definition is_partial (d : gmap string value) : Prop :=
  d !! "status" = Some (VStr "partial") /\
  exists f, f <> 0 /\ d !! "failed" = Some (VInt f).

Lemma migrate_status (cfg : config) (env : clients) (name : string)
    (ignore_columns : list string) (fuel : nat) (r : gmap string value)
    (calls : list call) :
  migrate_table_data cfg env name ignore_columns fuel =
    Some (Returned (r, calls)) ->
  is_skipped r \/ is_success r \/ is_partial r.
Proof.
  unfold migrate_table_data.
  destruct (get_table_count env) as [total_count|]; [|done].
  destruct (total_count =? 0).
  { intros [= <- <-]. left.
    by destruct (PipelineFacts.skipped_fields name) as (_ & ? & ? & _). }
  destruct (get_table_schema env) as [schema_info|]; [|done].
  destruct (run_loop _ _ _ _ _ _) as [st|]; [|done].
  intros [= <- <-].
  destruct (PipelineFacts.summary_fields name total_count st)
    as (_ & Hs & _ & Hf & _).
  destruct (failed st =? 0) eqn:E.
  - right; left. apply Z.eqb_eq in E. split; [done |]. by rewrite Hf, E.
  - right; right. apply Z.eqb_neq in E. split; [done |]. by eauto.
Qed.

Definition filed_right (results : all_results) : Prop :=
  all_failed results = [] /\
  Forall is_success (all_success results) /\
  Forall is_partial (all_partial results) /\
  Forall is_skipped (all_skipped results).

Definition filed (results : all_results) : nat :=
  (length (all_success results) + length (all_failed results) +
   length (all_partial results) + length (all_skipped results))%nat.

Lemma file_result_right (r : gmap string value) (status : value)
    (results : all_results) :
  r !! "status" = Some status ->
  is_skipped r \/ is_success r \/ is_partial r ->
  filed_right results ->
  filed_right (file_result status r results) /\
  filed (file_result status r results) = S (filed results).
Proof.
  intros Hst Hkind (Hf & Hs & Hp & Hk). unfold file_result, filed.
  destruct Hkind as [Hr | [Hr | Hr]];
    pose proof Hr as [Hst' _]; rewrite Hst in Hst'; injection Hst' as ->;
    simpl; unfold filed_right; simpl; rewrite ?length_app; simpl;
    (split; [| lia]); repeat split; try done;
    apply Forall_app; split; try done; by constructor.
Qed.

Lemma all_loop_right (cfg : config) (envs : nat -> string -> clients)
    (ignore_columns_map : gmap string (list string)) (fuel i : nat)
    (tables : list string) (acc results : all_results) :
  all_loop cfg envs ignore_columns_map fuel i tables acc =
    Some (Returned results) ->
  filed_right acc ->
  filed_right results /\ filed results = (filed acc + length tables)%nat.
Proof.
  revert i acc. induction tables as [|table tables IH]; intros i acc H Hacc;
    simpl in H.
  - injection H as <-. split; [done | simpl; lia].
  - destruct (migrate_table_data _ _ _ _ _) as [[[r calls]|]|] eqn:Em;
      [| done | done].
    destruct (r !! "status") as [status|] eqn:Es; [|done].
    destruct (file_result_right r status acc Es
                (migrate_status _ _ _ _ _ _ _ Em) Hacc) as [Hr Hn].
    destruct (IH _ _ H Hr) as [Hr' Hn']. split; [done |].
    rewrite Hn', Hn. simpl. lia.
Qed.

(** X21: when [migrate_all_data] returns, every table of the run has one
    result, filed under [success], [partial] or [skipped] according to its
    status; a [success] result has [failed = 0], a [partial] one has not,
    and the list [failed] is always empty. *)
Theorem results_filed (cfg : config) (envs : nat -> string -> clients)
    (tables : list string) (ignore_columns_map : gmap string (list string))
    (fuel : nat) (results : all_results) :
  migrate_all_data cfg envs tables ignore_columns_map fuel =
    Some (Returned results) ->
  all_failed results = [] /\
  Forall is_success (all_success results) /\
  Forall is_partial (all_partial results) /\
  Forall is_skipped (all_skipped results) /\
  (length (all_success results) + length (all_partial results) +
   length (all_skipped results) = length tables)%nat.
Proof.
  unfold migrate_all_data. intros H.
  destruct (all_loop_right _ _ _ _ _ _ _ _ H) as [(Hf & Hs & Hp & Hk) Hn].
  { unfold filed_right, no_results. simpl. by repeat split. }
  repeat (split; [done |]).
  unfold filed in Hn. rewrite Hf in Hn. simpl in Hn. lia.
Qed.

Lemma all_loop_app (cfg : config) (envs : nat -> string -> clients)
    (ignore_columns_map : gmap string (list string)) (fuel i : nat)
    (before after : list string) (acc : all_results) :
  all_loop cfg envs ignore_columns_map fuel i (before ++ after) acc =
  match all_loop cfg envs ignore_columns_map fuel i before acc with
  | Some (Returned acc') =>
      all_loop cfg envs ignore_columns_map fuel (i + length before) after acc'
  | other => other
  end.
Proof.
  revert i acc. induction before as [|table before IH]; intros i acc; simpl.
  - by rewrite Nat.add_0_r.
  - destruct (migrate_table_data _ _ _ _ _) as [[[r calls]|]|]; [| done..].
    destruct (r !! "status"); [|done].
    rewrite IH. by replace (S i + length before)%nat
      with (i + S (length before))%nat by lia.
Qed.

(** X22: an exception of [get_table_count] is not caught anywhere in the
    data phase: if counting a table raises after the tables before it were
    migrated, [migrate_all_data] raises that exception; the results of the
    earlier tables are not returned and the later tables are not
    attempted. *)
Theorem count_exception_ends_run (cfg : config)
    (envs : nat -> string -> clients) (before : list string) (table : string)
    (after : list string) (ignore_columns_map : gmap string (list string))
    (fuel : nat) (done_so_far : all_results) (e : exn) :
  migrate_all_data cfg envs before ignore_columns_map fuel =
    Some (Returned done_so_far) ->
  get_table_count (envs (length before) table) = Raised e ->
  migrate_all_data cfg envs (before ++ table :: after) ignore_columns_map
    fuel = Some (Raised e).
Proof.
  unfold migrate_all_data. intros Hbefore Hcount.
  rewrite all_loop_app, Hbefore. simpl.
  unfold migrate_table_data. by rewrite Hcount.
Qed.

Lemma results_filed_witness :
  exists results,
    migrate_all_data small_chunks two_table_run ["users"] ∅ 3 =
      Some (Returned results) /\
    all_failed results = [] /\ length (all_success results) = 1%nat.
Proof.
  exists (default no_results
            (match migrate_all_data small_chunks two_table_run ["users"] ∅ 3
             with Some (Returned r) => Some r | _ => None end)).
  assert (migrate_all_data small_chunks two_table_run ["users"] ∅ 3 =
          Some (Returned
                  (default no_results
                     (match migrate_all_data small_chunks two_table_run
                              ["users"] ∅ 3
                      with Some (Returned r) => Some r | _ => None end))))
    as H by (vm_compute; reflexivity).
  split; [exact H |].
  destruct (results_filed _ _ _ _ _ _ H) as (Hf & _).
  split; [exact Hf |]. vm_compute. reflexivity.
Defined.

Lemma count_exception_ends_run_witness :
  migrate_all_data small_chunks two_table_run ["users"; "orders"; "items"]
    ∅ 3 = Some (Raised DatabaseError).
Proof.
  apply (count_exception_ends_run small_chunks two_table_run ["users"]
           "orders" ["items"] ∅ 3
           (default no_results
              (match migrate_all_data small_chunks two_table_run ["users"]
                       ∅ 3
               with Some (Returned r) => Some r | _ => None end)));
    [vm_compute; reflexivity | reflexivity].
Defined.

End DataRunFacts.

(** ** The batches written to the target *)
Module OceanBaseFacts.
Import OceanBase Samples2 Samples4.

(** Rows of one SELECT: the same columns, in the same order, each once. *)
Definition uniform (columns : list string) (data : list row) : Prop :=
  NoDup columns /\ Forall (fun r : row => r.*1 = columns) data.

Lemma row_get_app (k : string) (before after : row) :
  k ∉ before.*1 -> row_get k (before ++ after) = row_get k after.
Proof.
  induction before as [|[k' v'] before IH]; intros Hk; [done |].
  simpl in *. rewrite decide_False.
  - apply IH. intros Hin. apply Hk. by right.
  - intros ->. apply Hk. by left.
Qed.

Lemma row_values_suffix (before after : row) :
  NoDup (before ++ after).*1 ->
  row_values after.*1 (before ++ after) = Some after.*2.
Proof.
  revert before. induction after as [|[k v] after IH]; intros before Hnd;
    [done |].
  simpl. rewrite row_get_app.
  - simpl. rewrite decide_True by done. simpl.
    replace (before ++ (k, v) :: after)
      with ((before ++ [(k, v)]) ++ after) by (by rewrite <- app_assoc).
    rewrite IH; [done |]. by rewrite <- app_assoc.
  - rewrite fmap_app in Hnd. apply NoDup_app in Hnd as (_ & Hnd & _).
    intros Hin. apply (Hnd k Hin). simpl. by left.
Qed.

Lemma batch_values_uniform (columns : list string) (batch : list row) :
  uniform columns batch ->
  batch_values columns batch = Some ((fun r : row => r.*2) <$> batch).
Proof.
  intros [Hnd Hall]. induction Hall as [|r batch Hr Hall IH]; [done |].
  pose proof (row_values_suffix [] r) as Hrow. simpl in Hrow.
  rewrite Hr in Hrow. simpl. rewrite Hrow by done.
  simpl. by rewrite IH.
Qed.

Section Batches.

Variable fails : nat -> bool.
Variable table_name : string.
Variable columns : list string.
Variable b : nat.
Hypothesis b_positive : (0 < b)%nat.

Local Abbreviation loop := (batch_loop fails table_name b).

Lemma batch_loop_step (fuel i : nat) (data : list row) (inserted : Z)
    (db : store) :
  uniform columns data -> data <> [] -> fails i = false ->
  loop (S fuel) i data inserted db =
  loop fuel (S i) (drop b data)
    (inserted + Z.of_nat (length (take b data)))
    (db ++ entries table_name columns (take b data)).
Proof.
  intros [Hnd Hall] Hne Hok. destruct data as [|first rest]; [done |].
  assert (first.*1 = columns) as Hfirst by (by inversion Hall).
  cbn [batch_loop]. rewrite Hfirst.
  rewrite (batch_values_uniform columns).
  - rewrite Hok. unfold entries. by rewrite <- list_fmap_compose.
  - split; [done |]. by apply Forall_take.
Qed.

Lemma batch_loop_all (fuel i : nat) (data : list row) (inserted : Z)
    (db : store) :
  (length data <= fuel)%nat -> uniform columns data ->
  (forall k, (i <= k)%nat -> fails k = false) ->
  loop fuel i data inserted db =
  (inserted + Z.of_nat (length data),
   db ++ entries table_name columns data).
Proof.
  revert i data inserted db.
  induction fuel as [|fuel IH]; intros i data inserted db Hfuel Hu Hok.
  - destruct data; [|simpl in Hfuel; lia].
    simpl. unfold entries. simpl. by rewrite Z.add_0_r, app_nil_r.
  - destruct (decide (data = [])) as [-> | Hne].
    { simpl. unfold entries. simpl. by rewrite Z.add_0_r, app_nil_r. }
    rewrite batch_loop_step by (try done; apply Hok; lia).
    assert (0 < length data)%nat by (destruct data; simpl; [done | lia]).
    rewrite IH.
    + rewrite length_take, length_drop, <- app_assoc.
      unfold entries. rewrite <- fmap_app, take_drop.
      f_equal. lia.
    + rewrite length_drop. lia.
    + destruct Hu as [Hnd Hall]. split; [done |]. by apply Forall_drop.
    + intros k Hk. apply Hok. lia.
Qed.

Lemma batch_loop_fail (j fuel i : nat) (data : list row) (inserted : Z)
    (db : store) :
  (length data <= fuel)%nat -> uniform columns data ->
  (forall k, (i <= k < i + j)%nat -> fails k = false) ->
  fails (i + j)%nat = true ->
  (j * b < length data)%nat ->
  loop fuel i data inserted db =
  (0, db ++ entries table_name columns (take (j * b) data)).
Proof.
  revert fuel i data inserted db.
  induction j as [|j IH]; intros fuel i data inserted db Hfuel Hu Hok Hbad Hlen.
  - rewrite Nat.add_0_r in Hbad. simpl in Hlen.
    destruct data as [|first rest]; [simpl in Hlen; lia |].
    destruct fuel as [|fuel]; [simpl in Hfuel; lia |].
    destruct Hu as [Hnd Hall].
    assert (first.*1 = columns) as Hfirst by (by inversion Hall).
    cbn [batch_loop]. rewrite Hfirst.
    rewrite (batch_values_uniform columns)
      by (split; [done | by apply Forall_take]).
    rewrite Hbad. simpl. unfold entries. simpl. by rewrite app_nil_r.
  - destruct fuel as [|fuel]; [lia |].
    assert (data <> []) as Hne by (intros ->; simpl in Hlen; lia).
    rewrite batch_loop_step by (try done; apply Hok; lia).
    rewrite (IH fuel (S i)).
    + rewrite <- app_assoc. unfold entries. rewrite <- fmap_app.
      f_equal. f_equal. f_equal.
      replace (S j * b)%nat with (b + j * b)%nat by lia.
      by rewrite take_take_drop.
    + rewrite length_drop. lia.
    + destruct Hu as [Hnd Hall]. split; [done |]. by apply Forall_drop.
    + intros k Hk. apply Hok. lia.
    + by replace (S i + j)%nat with (i + S j)%nat by lia.
    + rewrite length_drop. simpl in Hlen. lia.
Qed.

End Batches.

(** X24: for rows that all have the same columns, [insert_batch] with a
    positive batch size and no failing [executemany] returns the number of
    rows and leaves every row in the target, once and in order; with a
    batch size of zero or less it writes nothing and returns 0. *)
Theorem insert_batch_all (fails : nat -> bool) (table_name : string)
    (columns : list string) (data : list row) (batch_size : Z) (db : store) :
  uniform columns data ->
  (0 < batch_size ->
   (forall i, fails i = false) ->
   insert_batch fails table_name data batch_size db =
   (Z.of_nat (length data), db ++ entries table_name columns data)) /\
  (batch_size <= 0 ->
   insert_batch fails table_name data batch_size db = (0, db)).
Proof.
  intros Hu. unfold insert_batch. split.
  - intros Hb Hok. destruct data as [|first rest] eqn:Ed.
    { unfold entries. simpl. by rewrite app_nil_r. }
    rewrite <- Ed in *.
    replace (batch_size =? 0) with false by lia.
    replace (batch_size <? 0) with false by lia.
    rewrite (batch_loop_all fails table_name columns); try done; lia.
  - intros Hb. destruct data; [done |].
    destruct (batch_size =? 0) eqn:E; [done |].
    by replace (batch_size <? 0) with true by lia.
Qed.

Lemma insert_batch_all_witness :
  insert_batch never_fails "users" three_rows 2 [] =
  (3, entries "users" ["id"; "is_active"] three_rows).
Proof.
  destruct (insert_batch_all never_fails "users" ["id"; "is_active"]
              three_rows 2 []) as [H _].
  - split; [| by repeat constructor].
    apply NoDup_cons. split; [|apply NoDup_singleton].
    intros Hin. by apply list_elem_of_singleton in Hin.
  - by apply H.
Defined.

(** X25: [insert_batch] commits batch by batch but answers 0 as soon as
    one [executemany] raises: if the first [j] batches go through and the
    next one fails, the rows of those [j] batches stay in the target while
    the count returned is 0. *)
Theorem insert_batch_partial_commit (fails : nat -> bool)
    (table_name : string) (columns : list string) (data : list row)
    (batch_size : Z) (db : store) (j : nat) :
  uniform columns data ->
  0 < batch_size ->
  (forall k, (k < j)%nat -> fails k = false) ->
  fails j = true ->
  (j * Z.to_nat batch_size < length data)%nat ->
  insert_batch fails table_name data batch_size db =
  (0, db ++ entries table_name columns
              (take (j * Z.to_nat batch_size) data)).
Proof.
  intros Hu Hb Hok Hbad Hlen. unfold insert_batch.
  destruct data as [|first rest] eqn:Ed; [simpl in Hlen; lia |].
  rewrite <- Ed in *.
  replace (batch_size =? 0) with false by lia.
  replace (batch_size <? 0) with false by lia.
  apply (batch_loop_fail fails table_name columns); try done; try lia.
  intros k Hk. apply Hok. lia.
Qed.

Lemma insert_batch_partial_commit_witness :
  insert_batch second_fails "users" three_rows 2 [] =
  (0, entries "users" ["id"; "is_active"] (take 2 three_rows)).
Proof.
  apply (insert_batch_partial_commit second_fails "users"
           ["id"; "is_active"] three_rows 2 [] 1).
  - split; [| by repeat constructor].
    apply NoDup_cons. split; [|apply NoDup_singleton].
    intros Hin. by apply list_elem_of_singleton in Hin.
  - done.
  - intros k Hk. by destruct k; [|lia].
  - done.
  - simpl. lia.
Defined.

End OceanBaseFacts.

(** ** Default clauses in the generated DDL *)
Module DefaultInDDL.
Import SchemaMigrator Samples.






End DefaultInDDL.
